(** * casbin_sqlalchemy_adapter: the rule-storage engine

    A shallow embedding of [casbin_sqlalchemy_adapter/adapter.py]: the
    [CasbinRule] record, the [Filter] builder and the [Adapter] operations,
    each running inside [_session_scope].

    What the code leaves to SQLAlchemy and to the database is modelled as
    follows.
    - The table is a list of rows in storage order; the primary key comes
      from a sequence.
    - A session is a unit of work.  Its statements run inside its own
      transaction: they reach the table when the session commits and are
      dropped when it rolls back.  Two sessions do not see each other's
      uncommitted statements.
    - The backend may fail a commit; which commits fail is a schedule carried
      by the store, so that every run is a function of its inputs.
    - Rule elements and ptypes are strings, as the engine passes them; the
      length bound of the columns is the backend's business. *)

From Stdlib Require Import List String Ascii ZArith Lia Bool Arith.
From Stdlib Require Import DecimalString DecimalZ Permutation Sorted.
Import ListNotations.
Local Open Scope string_scope.
Local Open Scope list_scope.

(** ** class CasbinRule *)

Module Rule.

(** One row of [casbin_rule].  [id] is the integer primary key, [ptype] the
    policy-type tag, [v0]..[v5] the nullable value columns ([None] is NULL). *)
Record CasbinRule := mkCasbinRule {
  id : Z;
  ptype : string;
  v0 : option string;
  v1 : option string;
  v2 : option string;
  v3 : option string;
  v4 : option string;
  v5 : option string
}.

(** [self._db_class(ptype=ptype)]: a fresh instance, every value column
    unset.  The primary key is assigned by the INSERT; until then the
    instance carries a placeholder. *)
Definition _db_class (p : string) : CasbinRule :=
  mkCasbinRule 0 p None None None None None None.

(** ["v{}".format(i)] *)
Definition format_v (i : Z) : string :=
  "v" ++ NilEmpty.string_of_int (Z.to_int i).

(** [getattr(self._db_class, name)] for the value columns; [None] stands for
    the AttributeError of a name the class does not have. *)
Definition getattr (name : string) : option (CasbinRule -> option string) :=
  if name =? "v0" then Some v0
  else if name =? "v1" then Some v1
  else if name =? "v2" then Some v2
  else if name =? "v3" then Some v3
  else if name =? "v4" then Some v4
  else if name =? "v5" then Some v5
  else None.

(** [setattr(line, name, v)] (and the assignment [line.<name> = v]) on a
    value attribute.  A name that is a mapped column changes the column.  Any
    other name only creates a plain attribute on the Python instance: it is
    not part of the row, no statement ever reads it, and the mapped state is
    unchanged. *)
Definition setattr (line : CasbinRule) (name : string) (v : option string)
  : CasbinRule :=
  let '(mkCasbinRule i p a0 a1 a2 a3 a4 a5) := line in
  if name =? "v0" then mkCasbinRule i p v a1 a2 a3 a4 a5
  else if name =? "v1" then mkCasbinRule i p a0 v a2 a3 a4 a5
  else if name =? "v2" then mkCasbinRule i p a0 a1 v a3 a4 a5
  else if name =? "v3" then mkCasbinRule i p a0 a1 a2 v a4 a5
  else if name =? "v4" then mkCasbinRule i p a0 a1 a2 a3 v a5
  else if name =? "v5" then mkCasbinRule i p a0 a1 a2 a3 a4 v
  else line.

(** The loop of [__str__]: collect the values up to the first unset one. *)
Fixpoint until_none (vs : list (option string)) : list string :=
  match vs with
  | Some v :: rest => v :: until_none rest
  | _ => []
  end.

(** [CasbinRule.__str__] *)
Definition __str__ (self : CasbinRule) : string :=
  let arr := [ptype self] ++
             until_none [v0 self; v1 self; v2 self; v3 self; v4 self; v5 self] in
  String.concat ", " arr.

(** The value column at a position, [None] past the last column as well: the
    positional reading of a row that the statements below use. *)
Definition value_at (i : nat) (r : CasbinRule) : option string :=
  match i with
  | 0 => v0 r | 1 => v1 r | 2 => v2 r | 3 => v3 r | 4 => v4 r | 5 => v5 r
  | _ => None
  end%nat.

End Rule.
Export Rule.

(** ** Results and the monad of the adapter's methods *)

(** The exceptions the code paths can meet. *)
Inductive exn :=
| StorageError                 (* the backend failed (connectivity, commit) *)
| NoResultFound                (* Query.one() on no row *)
| MultipleResultsFound         (* Query.one() on several rows *)
| AttributeError (name : string)
| IndexError.

Inductive result (A : Type) :=
| Ok (a : A)
| Raise (e : exn).
Arguments Ok {A} a.
Arguments Raise {A} e.

(** A computation over a state [St] that returns or raises.  The state
    survives a raise: what was committed before the exception stays. *)
Definition M (St A : Type) : Type := St -> St * result A.

Definition ret {St A} (a : A) : M St A := fun s => (s, Ok a).
Definition raise {St A} (e : exn) : M St A := fun s => (s, Raise e).
Definition bind {St A B} (c : M St A) (k : A -> M St B) : M St B :=
  fun s =>
    match c s with
    | (s', Ok a) => k a s'
    | (s', Raise e) => (s', Raise e)
    end.

Notation "x <- c ;; k" := (bind c (fun x => k))
  (at level 61, c at next level, right associativity).
Notation "c ;; k" := (bind c (fun _ => k))
  (at level 61, right associativity).

(** [for x in xs: f(x)] *)
Fixpoint forM_ {St A} (xs : list A) (f : A -> M St unit) : M St unit :=
  match xs with
  | [] => ret tt
  | x :: rest => f x ;; forM_ rest f
  end.

(** [for x in xs: acc = f(acc, x)] *)
Fixpoint foldM {St A B} (f : B -> A -> M St B) (xs : list A) (acc : B) : M St B :=
  match xs with
  | [] => ret acc
  | x :: rest => acc' <- f acc x ;; foldM f rest acc'
  end.

(** [enumerate(xs)] *)
Definition enumerate {A} (xs : list A) : list (nat * A) :=
  combine (seq 0 (List.length xs)) xs.

(** ** The backend: table, primary-key sequence, failures *)

Module Backend.

(** [table] is [casbin_rule] in storage order, [next_id] the sequence behind
    the auto-assigned primary key.  [faults] is the backend's failure
    schedule: each unit of work that reaches the backend consumes one entry
    when it commits, and [true] makes that commit fail; an exhausted
    schedule never fails. *)
Record Store := mkStore {
  table : list CasbinRule;
  next_id : Z;
  faults : list bool
}.

(** The statements a session sends. *)
Inductive Statement :=
| Delete (ids : list Z)        (* the rows a [query.delete()] matched *)
| Insert (line : CasbinRule)   (* the flush of a [session.add(line)] *)
| Update (line : CasbinRule).  (* the flush of a modified loaded instance *)

Definition with_id (i : Z) (r : CasbinRule) : CasbinRule :=
  mkCasbinRule i (ptype r) (v0 r) (v1 r) (v2 r) (v3 r) (v4 r) (v5 r).

Definition mem_id (i : Z) (ids : list Z) : bool := existsb (Z.eqb i) ids.

Definition execute (db : Store) (s : Statement) : Store :=
  match s with
  | Delete ids =>
      mkStore (filter (fun r => negb (mem_id (id r) ids)) (table db))
              (next_id db) (faults db)
  | Insert line =>
      mkStore (table db ++ [with_id (next_id db) line])
              (next_id db + 1) (faults db)
  | Update line =>
      mkStore (map (fun r => if (id r =? id line)%Z then line else r) (table db))
              (next_id db) (faults db)
  end.

Definition execute_all (db : Store) (ss : list Statement) : Store :=
  fold_left execute ss db.

(** The next entry of the failure schedule, and the schedule after it. *)
Definition next_fault (db : Store) : bool := hd false (faults db).
Definition consume_fault (db : Store) : Store :=
  mkStore (table db) (next_id db) (tl (faults db)).

End Backend.
Export Backend.

(** ** Queries *)

Module Query.

(** A query under construction: the conjunction of its criteria and whether
    [order_by(CasbinRule.id)] was applied. *)
Record t := mk {
  criteria : list (CasbinRule -> bool);
  ordered : bool
}.

(** [session.query(self._db_class)] *)
Definition query : t := mk [] false.

(** [query.filter(criterion)] *)
Definition filter (q : t) (c : CasbinRule -> bool) : t :=
  mk (criteria q ++ [c]) (ordered q).

(** [query.order_by(CasbinRule.id)] *)
Definition order_by_id (q : t) : t := mk (criteria q) true.

(** Ascending order on the primary key. *)
Fixpoint insert_by_id (r : CasbinRule) (rs : list CasbinRule) : list CasbinRule :=
  match rs with
  | [] => [r]
  | r' :: rest =>
      if (id r <=? id r')%Z then r :: rs else r' :: insert_by_id r rest
  end.

Fixpoint sort_by_id (rs : list CasbinRule) : list CasbinRule :=
  match rs with
  | [] => []
  | r :: rest => insert_by_id r (sort_by_id rest)
  end.

Definition satisfies (q : t) (r : CasbinRule) : bool :=
  forallb (fun c => c r) (criteria q).

(** The rows the query selects from a table. *)
Definition select (q : t) (rows : list CasbinRule) : list CasbinRule :=
  let sel := List.filter (satisfies q) rows in
  if ordered q then sort_by_id sel else sel.

(** Column expressions. [column == value]: a NULL column equals nothing. *)
Definition eq_ (col : CasbinRule -> option string) (v : string) : CasbinRule -> bool :=
  fun r => match col r with Some s => s =? v | None => false end.

(** [self._db_class.ptype == ptype] *)
Definition ptype_eq (p : string) : CasbinRule -> bool :=
  fun r => ptype r =? p.

(** [column.in_(values)] *)
Definition in_ (col : CasbinRule -> option string) (vs : list string) : CasbinRule -> bool :=
  fun r => match col r with Some s => existsb (String.eqb s) vs | None => false end.

(** [CasbinRule.ptype.in_(values)] *)
Definition ptype_in (vs : list string) : CasbinRule -> bool :=
  fun r => existsb (String.eqb (ptype r)) vs.

(** [or_(clause for ...)] *)
Definition or_ (clauses : list (CasbinRule -> bool)) : CasbinRule -> bool :=
  fun r => existsb (fun c => c r) clauses.

End Query.

(** ** Sessions *)

(** A session is a unit of work: the statements it has sent inside its
    transaction, and whether it has any business with the backend at all (a
    query executed or an instance added).  A session that was never used
    commits without reaching the backend. *)
Record Session := mkSession {
  pending : list Statement;
  used : bool
}.

(** [self.session_local()] *)
Definition session_local : Session := mkSession [] false.

Definition send (session : Session) (s : Statement) : Session :=
  mkSession (pending session ++ [s]) true.

Definition touch (session : Session) : Session :=
  mkSession (pending session) true.

(** What the session sees: the committed table with its own pending
    statements applied. *)
Definition view (session : Session) (db : Store) : list CasbinRule :=
  table (execute_all db (pending session)).

(** ** The policy model and the filter *)

(** [model.model[sec][ptype].policy]: the rule tuples of one policy type. *)
Record Assertion := mkAssertion { policy : list (list string) }.

(** The engine's model: [model.model] maps a section name to a dict from
    policy type to assertion.  Python dicts iterate in insertion order, so
    both levels are association lists. *)
Record Model := mkModel { model : list (string * list (string * Assertion)) }.

Fixpoint dict_get {V} (k : string) (d : list (string * V)) : option V :=
  match d with
  | [] => None
  | (k', v) :: rest => if k' =? k then Some v else dict_get k rest
  end.

Module Filter.
(** [class Filter]: seven lists of accepted values, all empty by default. *)
Record t := mk {
  ptype : list string;
  v0 : list string;
  v1 : list string;
  v2 : list string;
  v3 : list string;
  v4 : list string;
  v5 : list string
}.
Definition default : t := mk [] [] [] [] [] [] [].
End Filter.

(** ** class Adapter *)

(** The adapter object: the engine it is bound to and the filtered flag. *)
Record Adapter := mkAdapter {
  _engine : Store;
  _filtered : bool
}.

(** [Adapter.__init__(engine, filtered=False)].  [create_all] leaves an
    existing table as it is. *)
Definition __init__ (engine : Store) (filtered : bool) : Adapter :=
  mkAdapter engine filtered.

Definition set_engine (self : Adapter) (db : Store) : Adapter :=
  mkAdapter db (_filtered self).

(** Inside a [with self._session_scope() as session] block the code works on
    the session and on the adapter. *)
Definition Scope : Type := Session * Adapter.

(** A method of the adapter called from inside a block. *)
Definition call_self {A} (c : M Adapter A) : M Scope A :=
  fun sc =>
    match c (snd sc) with
    | (self', r) => ((fst sc, self'), r)
    end.

(** [query.all()] *)
Definition all (q : Query.t) : M Scope (list CasbinRule) :=
  fun sc =>
    ((touch (fst sc), snd sc),
     Ok (Query.select q (view (fst sc) (_engine (snd sc))))).

(** [query.one()]: exactly one row, or an exception. *)
Definition one (q : Query.t) : M Scope CasbinRule :=
  fun sc =>
    match Query.select q (view (fst sc) (_engine (snd sc))) with
    | [] => ((touch (fst sc), snd sc), Raise NoResultFound)
    | [r] => ((touch (fst sc), snd sc), Ok r)
    | _ :: _ :: _ => ((touch (fst sc), snd sc), Raise MultipleResultsFound)
    end.

(** [query.delete()]: deletes the rows the query matches inside the session's
    transaction and returns how many they were. *)
Definition delete (q : Query.t) : M Scope nat :=
  fun sc =>
    let matched := Query.select q (view (fst sc) (_engine (snd sc))) in
    ((send (fst sc) (Delete (map id matched)), snd sc), Ok (List.length matched)).

(** [session.add(line)] *)
Definition add (line : CasbinRule) : M Scope unit :=
  fun sc => ((send (fst sc) (Insert line), snd sc), Ok tt).

(** A loaded instance whose attributes were assigned: the session flushes its
    row when it commits. *)
Definition modified (line : CasbinRule) : M Scope unit :=
  fun sc => ((send (fst sc) (Update line), snd sc), Ok tt).

(** [getattr(self._db_class, name)] in a block. *)
Definition getattr_ {St} (name : string) : M St (CasbinRule -> option string) :=
  match getattr name with
  | Some col => ret col
  | None => raise (AttributeError name)
  end.

(** [session.commit()]: a used session reaches the backend, which fails or
    makes the pending statements permanent. *)
Definition commit (session : Session) (db : Store) : Store * result unit :=
  if used session then
    if next_fault db then (consume_fault db, Raise StorageError)
    else (execute_all (consume_fault db) (pending session), Ok tt)
  else (db, Ok tt).

(** [Adapter._session_scope]: a new session; the block; then commit.  An
    exception of the block or of the commit rolls the session back (its
    pending statements are dropped) and is raised again.  A [return] inside
    the block leaves through the commit as well. *)
Definition _session_scope {A} (body : M Scope A) : M Adapter A :=
  fun self =>
    match body (session_local, self) with
    | ((session, self'), Ok a) =>
        match commit session (_engine self') with
        | (db, Ok _) => (set_engine self' db, Ok a)
        | (db, Raise e) => (set_engine self' db, Raise e)
        end
    | ((_, self'), Raise e) => (self', Raise e)
    end.

(** [Adapter.filter_query] *)
Definition filter_query (querydb : Query.t) (filter : Filter.t) : Query.t :=
  let querydb := if (0 <? List.length (Filter.ptype filter))%nat
                 then Query.filter querydb (Query.ptype_in (Filter.ptype filter))
                 else querydb in
  let querydb := if (0 <? List.length (Filter.v0 filter))%nat
                 then Query.filter querydb (Query.in_ v0 (Filter.v0 filter))
                 else querydb in
  let querydb := if (0 <? List.length (Filter.v1 filter))%nat
                 then Query.filter querydb (Query.in_ v1 (Filter.v1 filter))
                 else querydb in
  let querydb := if (0 <? List.length (Filter.v2 filter))%nat
                 then Query.filter querydb (Query.in_ v2 (Filter.v2 filter))
                 else querydb in
  let querydb := if (0 <? List.length (Filter.v3 filter))%nat
                 then Query.filter querydb (Query.in_ v3 (Filter.v3 filter))
                 else querydb in
  let querydb := if (0 <? List.length (Filter.v4 filter))%nat
                 then Query.filter querydb (Query.in_ v4 (Filter.v4 filter))
                 else querydb in
  let querydb := if (0 <? List.length (Filter.v5 filter))%nat
                 then Query.filter querydb (Query.in_ v5 (Filter.v5 filter))
                 else querydb in
  Query.order_by_id querydb.

(** [Adapter._save_policy_line]: a session of its own around one insert. *)
Definition _save_policy_line (ptype : string) (rule : list string) : M Adapter unit :=
  _session_scope (
    let line := _db_class ptype in
    let line := fold_left
                  (fun line iv => setattr line (format_v (Z.of_nat (fst iv))) (Some (snd iv)))
                  (enumerate rule) line in
    add line).

(** [Adapter.save_policy] *)
Definition save_policy (m : Model) : M Adapter bool :=
  _session_scope (
    let query := Query.query in
    _ <- delete query ;;
    forM_ ["p"; "g"] (fun sec =>
      match dict_get sec (model m) with
      | None => ret tt                                   (* continue *)
      | Some asts =>
          forM_ asts (fun item =>
            forM_ (policy (snd item)) (fun rule =>
              call_self (_save_policy_line (fst item) rule)))
      end)) ;;
  ret true.

(** [Adapter.add_policy] *)
Definition add_policy (sec ptype : string) (rule : list string) : M Adapter unit :=
  _save_policy_line ptype rule.

(** [Adapter.add_policies] *)
Definition add_policies (sec ptype : string) (rules : list (list string)) : M Adapter unit :=
  forM_ rules (fun rule => _save_policy_line ptype rule).

(** The loop shared by [remove_policy] and [update_policy]: one equality
    criterion per element of the rule, on the column named after its index. *)
Definition filter_by_rule {St} (query : Query.t) (rule : list string) : M St Query.t :=
  foldM (fun query iv =>
           col <- getattr_ (format_v (Z.of_nat (fst iv))) ;;
           ret (Query.filter query (Query.eq_ col (snd iv))))
        (enumerate rule) query.

(** [Adapter.remove_policy] *)
Definition remove_policy (sec ptype : string) (rule : list string) : M Adapter bool :=
  r <- _session_scope (
         let query := Query.query in
         let query := Query.filter query (Query.ptype_eq ptype) in
         query <- filter_by_rule query rule ;;
         delete query) ;;
  ret (if (0 <? r)%nat then true else false).

(** [zip] over the unpacked [rules]: each step takes the next element of every rule and stops
    as soon as one rule is exhausted. *)
Fixpoint heads {A} (ls : list (list A)) : option (list A) :=
  match ls with
  | [] => Some []
  | [] :: _ => None
  | (x :: _) :: rest =>
      match heads rest with
      | Some hs => Some (x :: hs)
      | None => None
      end
  end.

Fixpoint zip_steps {A} (fuel : nat) (ls : list (list A)) : list (list A) :=
  match fuel with
  | O => []
  | S fuel' =>
      match heads ls with
      | Some hs => hs :: zip_steps fuel' (map (@tl A) ls)
      | None => []
      end
  end.

Definition zip_star {A} (ls : list (list A)) : list (list A) :=
  match ls with
  | [] => []
  | l :: _ => zip_steps (List.length l) ls
  end.

(** [[f(x) for x in xs]] where [f] may raise. *)
Fixpoint mapM {St A B} (f : A -> M St B) (xs : list A) : M St (list B) :=
  match xs with
  | [] => ret []
  | x :: rest => y <- f x ;; ys <- mapM f rest ;; ret (y :: ys)
  end.

(** [Adapter.remove_policies] *)
Definition remove_policies (sec ptype : string) (rules : list (list string)) : M Adapter unit :=
  match rules with
  | [] => ret tt                                         (* if not rules: return *)
  | _ :: _ =>
      _session_scope (
        let query := Query.query in
        let query := Query.filter query (Query.ptype_eq ptype) in
        let rules := zip_star rules in
        query <- foldM (fun query irule =>
                   clauses <- mapM (fun v =>
                                col <- getattr_ (format_v (Z.of_nat (fst irule))) ;;
                                ret (Query.eq_ col v))
                              (snd irule) ;;
                   ret (Query.filter query (Query.or_ clauses)))
                 (enumerate rules) query ;;
        _ <- delete query ;;
        ret tt)
  end.

(** [Adapter.remove_filtered_policy].  The block either returns [False] from
    inside ([inl]) or falls through with the number of deleted rows ([inr]). *)
Definition remove_filtered_policy (sec ptype : string) (field_index : Z)
    (field_values : list string) : M Adapter bool :=
  r <- _session_scope (
         let query := Query.filter Query.query (Query.ptype_eq ptype) in
         if negb ((0 <=? field_index)%Z && (field_index <=? 5)%Z) then
           ret (inl false)
         else if negb ((1 <=? field_index + Z.of_nat (List.length field_values))%Z
                       && (field_index + Z.of_nat (List.length field_values) <=? 6)%Z) then
           ret (inl false)
         else
           query <- foldM (fun query iv =>
                      if negb (snd iv =? "") then
                        v_value <- getattr_ (format_v (field_index + Z.of_nat (fst iv))) ;;
                        ret (Query.filter query (Query.eq_ v_value (snd iv)))
                      else ret query)
                    (enumerate field_values) query ;;
           r <- delete query ;;
           ret (inr r)) ;;
  match r with
  | inl b => ret b
  | inr r => ret (if (0 <? r)%nat then true else false)
  end.

(** [Adapter.update_policy] *)
Definition update_policy (sec ptype : string) (old_rule new_rule : list string)
  : M Adapter unit :=
  _session_scope (
    let query := Query.filter Query.query (Query.ptype_eq ptype) in
    (* locate the old rule *)
    query <- filter_by_rule query old_rule ;;
    (* need the length of the longest_rule to perform overwrite *)
    let longest_rule :=
      if (List.length new_rule <? List.length old_rule)%nat then old_rule else new_rule in
    old_rule_line <- one query ;;
    (* overwrite the old rule with the new rule *)
    let old_rule_line :=
      fold_left
        (fun line index =>
           if (index <? List.length new_rule)%nat
           then setattr line (format_v (Z.of_nat index)) (nth_error new_rule index)
           else setattr line (format_v (Z.of_nat index)) None)
        (seq 0 (List.length longest_rule)) old_rule_line in
    modified old_rule_line).

(** [Adapter.update_policies] *)
Definition update_policies (sec ptype : string) (old_rules new_rules : list (list string))
  : M Adapter unit :=
  forM_ (seq 0 (List.length old_rules)) (fun i =>
    match nth_error old_rules i, nth_error new_rules i with
    | Some old_rule, Some new_rule => update_policy sec ptype old_rule new_rule
    | _, _ => raise IndexError
    end).

(** [Adapter.is_filtered] *)
Definition is_filtered (self : Adapter) : bool := _filtered self.

Section Loading.

(** [persist.load_policy_line(line, model)], the engine's line loader. *)
Variable load_policy_line : string -> Model -> Model.

(** [for line in lines: persist.load_policy_line(str(line), model)] *)
Definition feed (lines : list CasbinRule) (m : Model) : Model :=
  fold_left (fun m line => load_policy_line (__str__ line) m) lines m.

(** [Adapter.load_policy]; the result is the model after the loop. *)
Definition load_policy (m : Model) : M Adapter Model :=
  _session_scope (
    lines <- all Query.query ;;
    ret (feed lines m)).

(** [Adapter.load_filtered_policy] *)
Definition load_filtered_policy (m : Model) (filter : Filter.t) : M Adapter Model :=
  _session_scope (
    let query := Query.query in
    let filters := filter_query query filter in
    filters <- all filters ;;
    let m := feed filters m in
    fun sc => ((fst sc, mkAdapter (_engine (snd sc)) true), Ok m)).   (* self._filtered = True *)

(** The public operations, as the engine calls them over an adapter's
    lifetime. *)
Inductive Call :=
| LoadPolicy (m : Model)
| IsFiltered
| LoadFilteredPolicy (m : Model) (filter : Filter.t)
| SavePolicy (m : Model)
| AddPolicy (sec ptype : string) (rule : list string)
| AddPolicies (sec ptype : string) (rules : list (list string))
| RemovePolicy (sec ptype : string) (rule : list string)
| RemovePolicies (sec ptype : string) (rules : list (list string))
| RemoveFilteredPolicy (sec ptype : string) (field_index : Z) (field_values : list string)
| UpdatePolicy (sec ptype : string) (old_rule new_rule : list string)
| UpdatePolicies (sec ptype : string) (old_rules new_rules : list (list string)).

(** The adapter after one call; what the call returned or raised goes to
    the caller. *)
Definition after (c : Call) (self : Adapter) : Adapter :=
  match c with
  | LoadPolicy m => fst (load_policy m self)
  | IsFiltered => self
  | LoadFilteredPolicy m f => fst (load_filtered_policy m f self)
  | SavePolicy m => fst (save_policy m self)
  | AddPolicy sec p rule => fst (add_policy sec p rule self)
  | AddPolicies sec p rules => fst (add_policies sec p rules self)
  | RemovePolicy sec p rule => fst (remove_policy sec p rule self)
  | RemovePolicies sec p rules => fst (remove_policies sec p rules self)
  | RemoveFilteredPolicy sec p i vs => fst (remove_filtered_policy sec p i vs self)
  | UpdatePolicy sec p o n => fst (update_policy sec p o n self)
  | UpdatePolicies sec p os ns => fst (update_policies sec p os ns self)
  end.

Definition run (cs : list Call) (self : Adapter) : Adapter :=
  fold_left (fun self c => after c self) cs self.

End Loading.

(** ** Vocabulary of the statements: rows, matches and expected tables *)

Definition empty_db : Store := mkStore [] 1 [].
Definition fresh : Adapter := __init__ empty_db false.

(** The record of a rule tuple: the elements in [v0]..[v5] by position. *)
Definition record_of (i : Z) (p : string) (rule : list string) : CasbinRule :=
  mkCasbinRule i p (nth_error rule 0) (nth_error rule 1) (nth_error rule 2)
               (nth_error rule 3) (nth_error rule 4) (nth_error rule 5).

(** The records of a batch of rules, with consecutive primary keys. *)
Fixpoint records_of (i : Z) (p : string) (rules : list (list string)) : list CasbinRule :=
  match rules with
  | [] => []
  | rule :: rest => record_of i p rule :: records_of (i + 1) p rest
  end.

(** The backend accepts the next [n] commits. *)
Definition healthy (n : nat) (self : Adapter) : Prop :=
  forallb negb (firstn n (faults (_engine self))) = true.

(** A row matches [ptype] and every position of [rule] exactly. *)
Definition rule_matches (p : string) (rule : list string) (r : CasbinRule) : bool :=
  (ptype r =? p) &&
  forallb (fun iv => match value_at (fst iv) r with
                     | Some s => s =? snd iv
                     | None => false
                     end) (enumerate rule).

Definition count_matching (p : string) (rule : list string) (rows : list CasbinRule) : nat :=
  List.length (List.filter (rule_matches p rule) rows).

(** The criteria that the loop over [enumerate(rule)] adds to a query, one
    per element, starting at position [k]. *)
Definition rule_criteria (k : nat) (rule : list string) : list (CasbinRule -> bool) :=
  map (fun iv => Query.eq_ (value_at (fst iv)) (snd iv))
      (combine (seq k (List.length rule)) rule).

(** The loop of [update_policy] that overwrites the located instance. *)
Definition overwrite (old_rule new_rule : list string) (line : CasbinRule) : CasbinRule :=
  let longest_rule :=
    if (List.length new_rule <? List.length old_rule)%nat then old_rule else new_rule in
  fold_left
    (fun line index =>
       if (index <? List.length new_rule)%nat
       then setattr line (format_v (Z.of_nat index)) (nth_error new_rule index)
       else setattr line (format_v (Z.of_nat index)) None)
    (seq 0 (List.length longest_rule)) line.

(** The primary key is unique in the table. *)
Definition primary_key (self : Adapter) : Prop :=
  NoDup (map id (table (_engine self))).

(** The length of the shortest rule of a batch: the number of positions
    that [remove_policies] constrains. *)
Fixpoint shortest {A} (ls : list (list A)) : nat :=
  match ls with
  | [] => 0
  | l :: rest =>
      match rest with
      | [] => List.length l
      | _ :: _ => Nat.min (List.length l) (shortest rest)
      end
  end.

(** The relaxed match of [remove_policies]: the row has the given ptype and,
    at each constrained position, its value is the element at that position
    of some rule of the batch. *)
Definition relaxed_match (p : string) (rules : list (list string)) (r : CasbinRule) : bool :=
  (ptype r =? p) &&
  forallb (fun i =>
             existsb (fun rule =>
                        match nth_error rule i with
                        | Some v => Query.eq_ (value_at i) v r
                        | None => false
                        end) rules)
          (seq 0 (shortest rules)).

(** The match of [remove_filtered_policy]: the row has the given ptype and,
    at each offset from [field_index], the value given there unless that
    value is the empty string. *)
Definition filtered_match (p : string) (field_index : Z) (field_values : list string)
    (r : CasbinRule) : bool :=
  (ptype r =? p) &&
  forallb (fun iv =>
             if snd iv =? "" then true
             else Query.eq_ (value_at (Z.to_nat (field_index + Z.of_nat (fst iv)))) (snd iv) r)
          (enumerate field_values).

(** The criterion the loop over the transposed rules adds for its columns,
    from position [k] on. *)
Definition columns_match (k : nat) (cols : list (list string)) (r : CasbinRule) : bool :=
  forallb (fun icol => existsb (fun v => Query.eq_ (value_at (fst icol)) v r) (snd icol))
          (combine (seq k (List.length cols)) cols).

(** A table with two rules of alice. *)
Definition two_alice : Adapter :=
  mkAdapter
    (mkStore [mkCasbinRule 1 "p" (Some "alice") (Some "data1") (Some "read") None None None;
              mkCasbinRule 2 "p" (Some "alice") (Some "data2") (Some "read") None None None;
              mkCasbinRule 3 "p" (Some "bob") (Some "data2") (Some "write") None None None]
             4 [])
    false.

(** A table with rules of several subjects and a grouping rule. *)
Definition mixed : Adapter :=
  mkAdapter
    (mkStore [mkCasbinRule 1 "p" (Some "alice") (Some "data1") (Some "read") None None None;
              mkCasbinRule 2 "p" (Some "alice") (Some "data2") (Some "read") None None None;
              mkCasbinRule 3 "p" (Some "carol") (Some "data1") (Some "read") None None None;
              mkCasbinRule 4 "g" (Some "alice") (Some "data1") None None None None]
             5 [])
    false.

(** Ascending primary keys. *)
Definition id_le (a b : CasbinRule) : Prop := (id a <= id b)%Z.

(** A line loader that only records, newest first, the lines it is fed. *)
Definition trace_line (line : string) (m : Model) : Model :=
  mkModel ((line, []) :: model m).

(** A computation keeps a property of its state, whether it returns or
    raises. *)
Definition preserves {St A} (P : St -> Prop) (c : M St A) : Prop :=
  forall s : St, P s -> P (fst (c s)).

(** A property of the adapter, seen from inside a block. *)
Definition in_scope (P : Adapter -> Prop) (sc : Scope) : Prop := P (snd sc).

(** A property of the adapter that a commit, whatever the session holds,
    cannot break. *)
Definition commit_stable (P : Adapter -> Prop) : Prop :=
  forall (self : Adapter) (session : Session),
    P self -> P (set_engine self (fst (commit session (_engine self)))).

(** The table's keys are unique and were all drawn from the sequence. *)
Definition well_keyed (self : Adapter) : Prop :=
  NoDup (map id (table (_engine self)))
  /\ Forall (fun r => (id r < next_id (_engine self))%Z) (table (_engine self)).

(** The rule tuples of a model in the order [save_policy] visits them: the
    section "p" then the section "g", each policy type in turn, each rule of
    its assertion, paired with the policy type. *)
Definition section_rules (asts : list (string * Assertion)) : list (string * list string) :=
  flat_map (fun item => map (pair (fst item)) (policy (snd item))) asts.

Definition model_rules (m : Model) : list (string * list string) :=
  flat_map (fun sec => match dict_get sec (model m) with
                       | Some asts => section_rules asts
                       | None => []
                       end) ["p"; "g"].

(** The records of a list of typed rules, with consecutive primary keys. *)
Fixpoint records_of_pairs (i : Z) (prs : list (string * list string)) : list CasbinRule :=
  match prs with
  | [] => []
  | pr :: rest => record_of i (fst pr) (snd pr) :: records_of_pairs (i + 1) rest
  end.

(** The adapter once typed rules were inserted one after the other on a
    backend that never fails. *)
Definition stored (self : Adapter) (prs : list (string * list string)) : Adapter :=
  set_engine self
    (mkStore (table (_engine self) ++ records_of_pairs (next_id (_engine self)) prs)
             (next_id (_engine self) + Z.of_nat (List.length prs))
             []).

(** Every key in the table was drawn from the sequence. *)
Definition keys_below_sequence (self : Adapter) : Prop :=
  Forall (fun r => (id r < next_id (_engine self))%Z) (table (_engine self)).

(** A model with two policy rules and a grouping rule. *)
Definition policy_model : Model :=
  mkModel [("p", [("p", mkAssertion [["bob"; "data2"; "write"]; ["carol"; "data3"; "read"]])]);
           ("g", [("g", mkAssertion [["alice"; "admin"]])])].

(** One stored rule; a backend that accepts the next commit and fails the
    one after it. *)
Definition flaky : Adapter :=
  mkAdapter
    (mkStore [mkCasbinRule 1 "p" (Some "alice") (Some "data1") (Some "read") None None None]
             2 [false; true])
    false.

(** The same table on a backend that never fails. *)
Definition reliable : Adapter :=
  mkAdapter
    (mkStore [mkCasbinRule 1 "p" (Some "alice") (Some "data1") (Some "read") None None None]
             2 [])
    false.






(** The inserts of [save_policy] as one loop over the typed rules. *)
Definition save_lines (prs : list (string * list string)) : M Adapter unit :=
  forM_ prs (fun pr => _save_policy_line (fst pr) (snd pr)).

(** ** Lemmas on attribute names *)

Section AttributeNames.

Lemma format_v_inj (a b : Z) : format_v a = format_v b -> a = b.
Proof.
  unfold format_v. intros H. injection H as H.
  apply (f_equal NilEmpty.int_of_string) in H.
  rewrite !NilEmpty.isi in H. injection H as H.
  now apply DecimalZ.to_int_inj.
Qed.

Lemma format_v_eqb (a b : Z) : (format_v a =? format_v b) = (a =? b)%Z.
Proof.
  destruct (Z.eqb_spec a b) as [->|Hne].
  - apply String.eqb_refl.
  - apply String.eqb_neq. intros H. apply Hne. now apply format_v_inj.
Qed.

Lemma getattr_format_v (z : Z) :
  getattr (format_v z) =
  if ((0 <=? z) && (z <? 6))%Z then Some (value_at (Z.to_nat z)) else None.
Proof.
  unfold getattr.
  change "v0" with (format_v 0). change "v1" with (format_v 1).
  change "v2" with (format_v 2). change "v3" with (format_v 3).
  change "v4" with (format_v 4). change "v5" with (format_v 5).
  rewrite !format_v_eqb.
  destruct (Z.eqb_spec z 0) as [->|]; [reflexivity|].
  destruct (Z.eqb_spec z 1) as [->|]; [reflexivity|].
  destruct (Z.eqb_spec z 2) as [->|]; [reflexivity|].
  destruct (Z.eqb_spec z 3) as [->|]; [reflexivity|].
  destruct (Z.eqb_spec z 4) as [->|]; [reflexivity|].
  destruct (Z.eqb_spec z 5) as [->|]; [reflexivity|].
  destruct (Z.leb_spec 0 z); destruct (Z.ltb_spec z 6); simpl; try reflexivity; lia.
Qed.

Lemma getattr_index (i : nat) :
  getattr (format_v (Z.of_nat i)) = if (i <? 6)%nat then Some (value_at i) else None.
Proof.
  rewrite getattr_format_v, Nat2Z.id.
  destruct (Nat.ltb_spec i 6); destruct (Z.leb_spec 0 (Z.of_nat i));
    destruct (Z.ltb_spec (Z.of_nat i) 6); simpl; try reflexivity; lia.
Qed.

Lemma setattr_id line name v : id (setattr line name v) = id line.
Proof.
  destruct line; unfold setattr.
  repeat match goal with |- context [if ?c then _ else _] => destruct c end; reflexivity.
Qed.

Lemma setattr_ptype line name v : ptype (setattr line name v) = ptype line.
Proof.
  destruct line; unfold setattr.
  repeat match goal with |- context [if ?c then _ else _] => destruct c end; reflexivity.
Qed.

(** Assigning [v<i>]: position [i] changes when it is a column, nothing else
    does. *)
Lemma setattr_value_at line (i : nat) v (j : nat) :
  value_at j (setattr line (format_v (Z.of_nat i)) v) =
  if ((j =? i) && (j <? 6))%nat then v else value_at j line.
Proof.
  destruct line as [k p a0 a1 a2 a3 a4 a5]. unfold setattr.
  change "v0" with (format_v 0). change "v1" with (format_v 1).
  change "v2" with (format_v 2). change "v3" with (format_v 3).
  change "v4" with (format_v 4). change "v5" with (format_v 5).
  rewrite !format_v_eqb.
  destruct (Z.eqb_spec (Z.of_nat i) 0) as [E|];
    [assert (i = 0)%nat by lia; subst; destruct j as [|[|[|[|[|[|j]]]]]]; reflexivity|].
  destruct (Z.eqb_spec (Z.of_nat i) 1) as [E|];
    [assert (i = 1)%nat by lia; subst; destruct j as [|[|[|[|[|[|j]]]]]]; reflexivity|].
  destruct (Z.eqb_spec (Z.of_nat i) 2) as [E|];
    [assert (i = 2)%nat by lia; subst; destruct j as [|[|[|[|[|[|j]]]]]]; reflexivity|].
  destruct (Z.eqb_spec (Z.of_nat i) 3) as [E|];
    [assert (i = 3)%nat by lia; subst; destruct j as [|[|[|[|[|[|j]]]]]]; reflexivity|].
  destruct (Z.eqb_spec (Z.of_nat i) 4) as [E|];
    [assert (i = 4)%nat by lia; subst; destruct j as [|[|[|[|[|[|j]]]]]]; reflexivity|].
  destruct (Z.eqb_spec (Z.of_nat i) 5) as [E|];
    [assert (i = 5)%nat by lia; subst; destruct j as [|[|[|[|[|[|j]]]]]]; reflexivity|].
  destruct (Nat.eqb_spec j i) as [->|]; simpl; [|reflexivity].
  destruct (Nat.ltb_spec i 6); [lia|reflexivity].
Qed.

(** Two rows with the same key, type and positions are the same row. *)
Lemma row_ext (r r' : CasbinRule) :
  id r = id r' -> ptype r = ptype r' ->
  (forall j, (j < 6)%nat -> value_at j r = value_at j r') -> r = r'.
Proof.
  destruct r, r'; simpl; intros -> -> H.
  pose proof (H 0%nat ltac:(lia)) as H0. pose proof (H 1%nat ltac:(lia)) as H1.
  pose proof (H 2%nat ltac:(lia)) as H2. pose proof (H 3%nat ltac:(lia)) as H3.
  pose proof (H 4%nat ltac:(lia)) as H4. pose proof (H 5%nat ltac:(lia)) as H5.
  simpl in *. congruence.
Qed.

End AttributeNames.

(** ** Lemmas on the line-insert primitive *)

Section LineInsert.

Lemma assign_from_value_at (rule : list string) :
  forall (k : nat) (line : CasbinRule) (j : nat),
    value_at j (fold_left
                  (fun line iv => setattr line (format_v (Z.of_nat (fst iv))) (Some (snd iv)))
                  (combine (seq k (List.length rule)) rule) line)
    = if ((k <=? j) && (j <? k + List.length rule) && (j <? 6))%nat
      then nth_error rule (j - k) else value_at j line.
Proof.
  induction rule as [|v rest IH]; intros k line j; simpl.
  - destruct (Nat.leb_spec k j); destruct (Nat.ltb_spec j (k + 0)); simpl; try reflexivity; lia.
  - rewrite IH, setattr_value_at.
    destruct (Nat.leb_spec (S k) j); destruct (Nat.ltb_spec j (S k + List.length rest));
      destruct (Nat.ltb_spec j 6); destruct (Nat.leb_spec k j);
      destruct (Nat.ltb_spec j (k + S (List.length rest)));
      destruct (Nat.eqb_spec j k); simpl; try reflexivity; try lia.
    + replace (j - k)%nat with (S (j - S k)) by lia. reflexivity.
    + subst. rewrite Nat.sub_diag. reflexivity.
Qed.

Lemma assign_from_id (rule : list string) :
  forall (ixs : list nat) (line : CasbinRule),
    let line' := fold_left
                   (fun line iv => setattr line (format_v (Z.of_nat (fst iv))) (Some (snd iv)))
                   (combine ixs rule) line in
    id line' = id line /\ ptype line' = ptype line.
Proof.
  induction rule as [|v rest IH]; intros [|i ixs] line; simpl; auto.
  destruct (IH ixs (setattr line (format_v (Z.of_nat i)) (Some v))) as [E1 E2].
  rewrite E1, E2, setattr_id, setattr_ptype. auto.
Qed.

(** The instance [_save_policy_line] builds. *)
Lemma line_of_rule (p : string) (rule : list string) :
  fold_left (fun line iv => setattr line (format_v (Z.of_nat (fst iv))) (Some (snd iv)))
            (enumerate rule) (_db_class p)
  = record_of 0 p rule.
Proof.
  unfold enumerate.
  destruct (assign_from_id rule (seq 0 (List.length rule)) (_db_class p)) as [E1 E2].
  apply row_ext; [exact E1 | exact E2 |].
  intros j Hj. rewrite assign_from_value_at.
  rewrite Nat.sub_0_r. simpl (0 <=? j)%nat. simpl (0 + _)%nat.
  destruct (Nat.ltb_spec j (List.length rule)); destruct (Nat.ltb_spec j 6); simpl; try lia.
  - destruct j as [|[|[|[|[|[|j]]]]]]; try reflexivity; lia.
  - assert (nth_error rule j = None) as E by (apply nth_error_None; lia).
    destruct j as [|[|[|[|[|[|j]]]]]]; simpl in *; try (symmetry; exact E); lia.
Qed.

(** What one call of [_save_policy_line] does: a failing commit leaves the
    table as it was; otherwise the rule's record is appended under the next
    primary key. *)
Lemma _save_policy_line_run (p : string) (rule : list string) (self : Adapter) :
  _save_policy_line p rule self =
  if next_fault (_engine self)
  then (set_engine self (consume_fault (_engine self)), Raise StorageError)
  else (set_engine self
          (mkStore (table (_engine self) ++ [record_of (next_id (_engine self)) p rule])
                   (next_id (_engine self) + 1)
                   (tl (faults (_engine self)))),
        Ok tt).
Proof.
  unfold _save_policy_line, _session_scope, add, commit. simpl.
  rewrite line_of_rule.
  destruct (next_fault (_engine self)); reflexivity.
Qed.

End LineInsert.

(** ** add_policies *)

Section AddPolicies.

Lemma bind_ok {St A B} (c : M St A) (k : A -> M St B) (s s' : St) (a : A) :
  c s = (s', Ok a) -> bind c k s = k a s'.
Proof. intros H. unfold bind. now rewrite H. Qed.

Lemma bind_raise {St A B} (c : M St A) (k : A -> M St B) (s s' : St) (e : exn) :
  c s = (s', Raise e) -> bind c k s = (s', Raise e).
Proof. intros H. unfold bind. now rewrite H. Qed.

Lemma healthy_next (self : Adapter) :
  healthy 1 self <-> next_fault (_engine self) = false.
Proof.
  unfold healthy, next_fault. destruct (faults (_engine self)) as [|[|] fs]; simpl; intuition congruence.
Qed.

Lemma add_policies_cons (sec p : string) rule rest (self : Adapter) :
  add_policies sec p (rule :: rest) self =
  if next_fault (_engine self)
  then (set_engine self (consume_fault (_engine self)), Raise StorageError)
  else add_policies sec p rest
         (set_engine self
            (mkStore (table (_engine self) ++ [record_of (next_id (_engine self)) p rule])
                     (next_id (_engine self) + 1)
                     (tl (faults (_engine self))))).
Proof.
  unfold add_policies. simpl forM_. unfold bind.
  rewrite _save_policy_line_run.
  destruct (next_fault (_engine self)); reflexivity.
Qed.

(** C1, as the spec states it, fails: with a backend that accepts the first
    commit and fails the second, a batch of two rules raises and the first
    rule of the batch is in the table. *)
Lemma add_policies_batch_not_atomic :
  ~ (forall (self : Adapter) (sec p : string) (rules : list (list string))
            (self' : Adapter) (e : exn),
        add_policies sec p rules self = (self', Raise e) ->
        table (_engine self') = table (_engine self)).
Proof.
  intros H.
  specialize (H (mkAdapter (mkStore [] 1 [false; true]) false) "p" "p"
                [["alice"; "data1"; "read"]; ["bob"; "data2"; "write"]]
                (mkAdapter
                   (mkStore [mkCasbinRule 1 "p" (Some "alice") (Some "data1") (Some "read")
                                          None None None] 2 [])
                   false)
                StorageError eq_refl).
  discriminate H.
Qed.

(** C1 (amended): [add_policies] inserts the rules one by one, each in a
    transaction of its own.  The rules before the first failing commit are in
    the table, in order, after the rows that were there; the failing rule and
    the rules after it are not.  The call raises exactly when a commit
    failed. *)
Theorem add_policies_rule_by_rule (sec p : string) (rules : list (list string)) :
  forall self : Adapter,
  exists k : nat,
    table (_engine (fst (add_policies sec p rules self)))
      = table (_engine self) ++ records_of (next_id (_engine self)) p (firstn k rules)
    /\ forallb negb (firstn k (faults (_engine self))) = true
    /\ match snd (add_policies sec p rules self) with
       | Ok _ => k = List.length rules
       | Raise e => e = StorageError /\ (k < List.length rules)%nat
                    /\ nth k (faults (_engine self)) false = true
       end.
Proof.
  induction rules as [|rule rest IH]; intros self.
  - exists 0%nat. simpl. rewrite app_nil_r. auto.
  - rewrite add_policies_cons.
    destruct (next_fault (_engine self)) eqn:F.
    + exists 0%nat. simpl. rewrite app_nil_r. repeat split; try lia.
      unfold next_fault in F. destruct (faults (_engine self)); simpl in *; auto.
    + match goal with
      | |- context [add_policies sec p rest ?s] =>
          destruct (IH s) as [k [Ht [Hf Hr]]]; exists (S k)
      end.
      simpl in Ht, Hf, Hr |- *.
      rewrite Ht, <- app_assoc. simpl.
      unfold next_fault in F.
      destruct (faults (_engine self)) as [|f fs]; simpl in *.
      * split; [reflexivity|]. split; [reflexivity|].
        match goal with
        | |- match snd ?x with _ => _ end =>
            destruct (snd x); [lia|]
        end.
        destruct Hr as [He [Hk Hn]]. destruct k; discriminate Hn.
      * subst f. split; [reflexivity|]. split; [exact Hf|].
        match goal with
        | |- match snd ?x with _ => _ end =>
            destruct (snd x); [lia|]
        end.
        destruct Hr as [He [Hk Hn]]. repeat split; auto; lia.
Qed.

End AddPolicies.

(** ** add_policy on a rule longer than the value columns *)

Section ArityOverflow.

Lemma record_of_firstn (i : Z) (p : string) (rule : list string) :
  record_of i p (firstn 6 rule) = record_of i p rule.
Proof.
  destruct rule as [|a [|b [|c [|d [|e [|f rest]]]]]]; reflexivity.
Qed.

Example add_policy_seven_elements :
  add_policy "p" "p" ["a"; "b"; "c"; "d"; "e"; "f"; "g"] fresh
  = (mkAdapter
       (mkStore [mkCasbinRule 1 "p" (Some "a") (Some "b") (Some "c")
                              (Some "d") (Some "e") (Some "f")] 2 [])
       false,
     Ok tt).
Proof. reflexivity. Qed.

(** C2, as the spec states it, fails: no rule tuple longer than six elements
    is rejected.  Whatever the adapter and the rule, the only exception the
    insert path can raise is the backend's own failure. *)
Lemma add_policy_rejects_no_long_rule :
  ~ (exists (self : Adapter) (sec p : string) (rule : list string) (e : exn),
        (6 < List.length rule)%nat
        /\ snd (add_policy sec p rule self) = Raise e
        /\ e <> StorageError).
Proof.
  intros (self & sec & p & rule & e & _ & Hr & Hne).
  unfold add_policy in Hr. rewrite _save_policy_line_run in Hr.
  destruct (next_fault (_engine self)); simpl in Hr.
  - injection Hr as <-. now apply Hne.
  - discriminate Hr.
Qed.

(** C2 (amended): for every rule tuple longer than six elements, on a backend
    that accepts the commit, [add_policy] returns normally and stores one
    record whose [v0]..[v5] are the first six elements; the elements after
    the sixth are dropped, and nothing else in the table changes. *)
Theorem add_policy_truncates_long_rule (self : Adapter) (sec p : string)
    (rule : list string) :
  (6 < List.length rule)%nat ->
  healthy 1 self ->
  exists self' : Adapter,
    add_policy sec p rule self = (self', Ok tt)
    /\ table (_engine self')
       = table (_engine self)
         ++ [record_of (next_id (_engine self)) p (firstn 6 rule)]
    /\ forall j : nat,
         value_at j (record_of (next_id (_engine self)) p (firstn 6 rule))
         = if (j <? 6)%nat then nth_error rule j else None.
Proof.
  intros Hlen Hok. apply healthy_next in Hok.
  unfold add_policy. rewrite _save_policy_line_run, Hok.
  eexists. split; [reflexivity|]. split.
  - rewrite record_of_firstn. reflexivity.
  - intros j. rewrite record_of_firstn.
    destruct j as [|[|[|[|[|[|j]]]]]]; reflexivity.
Qed.

Lemma add_policy_truncates_long_rule_witness :
  exists self' : Adapter,
    add_policy "p" "p" ["a"; "b"; "c"; "d"; "e"; "f"; "g"] fresh = (self', Ok tt)
    /\ table (_engine self')
       = table (_engine fresh)
         ++ [record_of (next_id (_engine fresh)) "p"
               (firstn 6 ["a"; "b"; "c"; "d"; "e"; "f"; "g"])]
    /\ forall j : nat,
         value_at j (record_of (next_id (_engine fresh)) "p"
                       (firstn 6 ["a"; "b"; "c"; "d"; "e"; "f"; "g"]))
         = if (j <? 6)%nat then nth_error ["a"; "b"; "c"; "d"; "e"; "f"; "g"] j else None.
Proof.
  apply (add_policy_truncates_long_rule fresh "p" "p" ["a"; "b"; "c"; "d"; "e"; "f"; "g"]).
  - simpl. lia.
  - reflexivity.
Defined.

End ArityOverflow.

(** ** Locating a rule: the criteria built from a rule tuple *)

Section Locate.

Context {St : Type}.

Lemma locate_within_columns (rule : list string) :
  forall (k : nat) (query : Query.t) (s : St),
    (k + List.length rule <= 6)%nat ->
    foldM (fun query iv =>
             col <- getattr_ (format_v (Z.of_nat (fst iv))) ;;
             ret (Query.filter query (Query.eq_ col (snd iv))))
          (combine (seq k (List.length rule)) rule) query s
    = (s, Ok (Query.mk (Query.criteria query ++ rule_criteria k rule)
                       (Query.ordered query))).
Proof.
  induction rule as [|v rest IH]; intros k query s Hk.
  - simpl. unfold ret, rule_criteria. simpl. rewrite app_nil_r. now destruct query.
  - simpl in Hk. simpl combine. simpl foldM. unfold bind at 1. unfold bind at 1.
    unfold getattr_. simpl fst. rewrite getattr_index.
    destruct (Nat.ltb_spec k 6) as [_|]; [|lia].
    unfold ret at 1. unfold ret at 1. simpl snd.
    rewrite IH by lia. unfold rule_criteria. simpl.
    now rewrite <- app_assoc.
Qed.

Lemma locate_past_columns (rule : list string) :
  forall (k : nat) (query : Query.t) (s : St),
    (k <= 6 < k + List.length rule)%nat ->
    foldM (fun query iv =>
             col <- getattr_ (format_v (Z.of_nat (fst iv))) ;;
             ret (Query.filter query (Query.eq_ col (snd iv))))
          (combine (seq k (List.length rule)) rule) query s
    = (s, Raise (AttributeError "v6")).
Proof.
  induction rule as [|v rest IH]; intros k query s Hk.
  - simpl in Hk. lia.
  - simpl in Hk. simpl combine. simpl foldM. unfold bind at 1. unfold bind at 1.
    unfold getattr_. simpl fst. rewrite getattr_index.
    destruct (Nat.ltb_spec k 6) as [Hlt|Hge].
    + unfold ret at 1. unfold ret at 1. simpl snd. apply IH. lia.
    + assert (k = 6)%nat as -> by lia. reflexivity.
Qed.

Lemma satisfies_located (p : string) (rule : list string) (r : CasbinRule) :
  Query.satisfies
    (Query.mk (Query.criteria (Query.filter Query.query (Query.ptype_eq p))
               ++ rule_criteria 0 rule) false) r
  = rule_matches p rule r.
Proof.
  unfold Query.satisfies, rule_matches, rule_criteria, enumerate. simpl.
  unfold Query.ptype_eq at 1. f_equal.
  generalize (combine (seq 0 (List.length rule)) rule) as ivs.
  induction ivs as [|iv ivs IH]; simpl; [reflexivity|].
  rewrite IH. reflexivity.
Qed.

End Locate.

(** ** update_policy *)

Section UpdatePolicy.

Lemma overwrite_fold_value_at (new_rule : list string) (n : nat) :
  forall (k : nat) (line : CasbinRule) (j : nat),
    value_at j (fold_left
                  (fun line index =>
                     if (index <? List.length new_rule)%nat
                     then setattr line (format_v (Z.of_nat index)) (nth_error new_rule index)
                     else setattr line (format_v (Z.of_nat index)) None)
                  (seq k n) line)
    = if ((k <=? j) && (j <? k + n) && (j <? 6))%nat
      then (if (j <? List.length new_rule)%nat then nth_error new_rule j else None)
      else value_at j line.
Proof.
  induction n as [|n IH]; intros k line j; simpl.
  - destruct (Nat.leb_spec k j); destruct (Nat.ltb_spec j (k + 0)); simpl; try reflexivity; lia.
  - rewrite IH.
    destruct (Nat.leb_spec (S k) j); destruct (Nat.ltb_spec j (S k + n));
      destruct (Nat.ltb_spec j 6); destruct (Nat.leb_spec k j);
      destruct (Nat.ltb_spec j (k + S n)); simpl; try reflexivity; try lia;
      destruct (Nat.ltb_spec k (List.length new_rule));
      rewrite setattr_value_at;
      destruct (Nat.eqb_spec j k); simpl; try reflexivity; try lia;
      destruct (Nat.ltb_spec j 6); try lia; subst;
      destruct (Nat.ltb_spec k (List.length new_rule)); try reflexivity; lia.
Qed.

Lemma overwrite_fold_id (new_rule : list string) (ixs : list nat) :
  forall line : CasbinRule,
    let line' := fold_left
                   (fun line index =>
                      if (index <? List.length new_rule)%nat
                      then setattr line (format_v (Z.of_nat index)) (nth_error new_rule index)
                      else setattr line (format_v (Z.of_nat index)) None)
                   ixs line in
    id line' = id line /\ ptype line' = ptype line.
Proof.
  induction ixs as [|i ixs IH]; intros line; simpl; auto.
  match goal with |- context [fold_left _ ixs ?l] => destruct (IH l) as [E1 E2] end.
  simpl in E1, E2. rewrite E1, E2.
  destruct (i <? List.length new_rule)%nat; rewrite setattr_id, setattr_ptype; auto.
Qed.

Lemma overwrite_id old_rule new_rule line : id (overwrite old_rule new_rule line) = id line.
Proof. apply overwrite_fold_id. Qed.

Lemma overwrite_ptype old_rule new_rule line :
  ptype (overwrite old_rule new_rule line) = ptype line.
Proof. apply overwrite_fold_id. Qed.

(** Position by position: within [new_rule] the new value, from there up to
    the longer of the two rules unset, beyond that untouched. *)
Lemma overwrite_value_at old_rule new_rule line (j : nat) :
  (j < 6)%nat ->
  value_at j (overwrite old_rule new_rule line)
  = if (j <? List.length new_rule)%nat then nth_error new_rule j
    else if (j <? Nat.max (List.length old_rule) (List.length new_rule))%nat then None
    else value_at j line.
Proof.
  intros Hj. unfold overwrite. rewrite overwrite_fold_value_at.
  simpl (0 <=? j)%nat. simpl (0 + _)%nat.
  destruct (Nat.ltb_spec (List.length new_rule) (List.length old_rule));
    destruct (Nat.ltb_spec j (List.length new_rule));
    destruct (Nat.ltb_spec j (Nat.max (List.length old_rule) (List.length new_rule)));
    destruct (Nat.ltb_spec j 6);
    try match goal with |- context [(j <? List.length ?l)%nat] =>
          destruct (Nat.ltb_spec j (List.length l)) end;
    simpl; try reflexivity; lia.
Qed.

(** The run of [update_policy] when the old rule fits the columns. *)
Lemma update_policy_run (sec p : string) (old_rule new_rule : list string) (self : Adapter) :
  (List.length old_rule <= 6)%nat ->
  update_policy sec p old_rule new_rule self =
  match List.filter (rule_matches p old_rule) (table (_engine self)) with
  | [] => (self, Raise NoResultFound)
  | [r] =>
      if next_fault (_engine self)
      then (set_engine self (consume_fault (_engine self)), Raise StorageError)
      else (set_engine self
              (execute (consume_fault (_engine self))
                       (Update (overwrite old_rule new_rule r))),
            Ok tt)
  | _ :: _ :: _ => (self, Raise MultipleResultsFound)
  end.
Proof.
  intros Hlen.
  unfold update_policy, _session_scope, filter_by_rule, enumerate.
  unfold bind at 1. rewrite locate_within_columns by (simpl; lia).
  unfold bind at 1. unfold one. simpl fst. simpl snd.
  unfold view, session_local. simpl pending. simpl execute_all.
  unfold Query.select. simpl Query.ordered.
  rewrite (filter_ext _ _ (satisfies_located p old_rule)).
  destruct (List.filter (rule_matches p old_rule) (table (_engine self))) as [|r [|r' rs]].
  - destruct self; reflexivity.
  - unfold modified, commit, touch, send. simpl.
    fold (overwrite old_rule new_rule r).
    destruct (next_fault (_engine self)); reflexivity.
  - destruct self; reflexivity.
Qed.

Lemma rule_matches_past_columns (p : string) (rule : list string) (r : CasbinRule) :
  (6 < List.length rule)%nat -> rule_matches p rule r = false.
Proof.
  intros Hlen.
  destruct rule as [|a0 [|a1 [|a2 [|a3 [|a4 [|a5 [|a6 rest]]]]]]]; simpl in Hlen; try lia.
  unfold rule_matches, enumerate. simpl.
  rewrite !andb_false_r. reflexivity.
Qed.

Lemma count_matching_past_columns (p : string) (rule : list string) rows :
  (6 < List.length rule)%nat -> count_matching p rule rows = 0%nat.
Proof.
  intros Hlen. unfold count_matching.
  induction rows as [|r rows IH]; simpl; [reflexivity|].
  now rewrite rule_matches_past_columns.
Qed.

Lemma unique_by_id (rows : list CasbinRule) (a b : CasbinRule) :
  NoDup (map id rows) -> In a rows -> In b rows -> id a = id b -> a = b.
Proof.
  induction rows as [|r rows IH]; simpl; intros Hnd Ha Hb E; [contradiction|].
  inversion Hnd as [|x xs Hnotin Hnd']; subst.
  destruct Ha as [->|Ha], Hb as [->|Hb]; auto.
  - exfalso. apply Hnotin. rewrite E. now apply in_map.
  - exfalso. apply Hnotin. rewrite <- E. now apply in_map.
Qed.

(** C4: whenever the number of stored records that match [ptype] and every
    position of [old_rule] is zero or more than one, [update_policy] raises,
    and the adapter and its storage are exactly as before: no record was
    picked or modified.  When the old rule fits the columns the exception is
    NoResultFound for no match and MultipleResultsFound for several. *)
Theorem update_policy_cardinality (self : Adapter) (sec p : string)
    (old_rule new_rule : list string) :
  count_matching p old_rule (table (_engine self)) <> 1%nat ->
  exists e : exn,
    update_policy sec p old_rule new_rule self = (self, Raise e)
    /\ ((List.length old_rule <= 6)%nat ->
        count_matching p old_rule (table (_engine self)) = 0%nat -> e = NoResultFound)
    /\ ((1 < count_matching p old_rule (table (_engine self)))%nat ->
        e = MultipleResultsFound).
Proof.
  intros Hcount.
  destruct (Nat.leb_spec (List.length old_rule) 6) as [Hlen|Hlen].
  - rewrite update_policy_run by exact Hlen.
    unfold count_matching in *.
    destruct (List.filter (rule_matches p old_rule) (table (_engine self)))
      as [|r [|r' rs]]; simpl in *.
    + exists NoResultFound. repeat split; auto. lia.
    + congruence.
    + exists MultipleResultsFound. repeat split; auto. lia.
  - exists (AttributeError "v6"). split; [|split].
    + unfold update_policy, _session_scope, filter_by_rule, enumerate.
      unfold bind at 1. rewrite locate_past_columns by (simpl; lia).
      destruct self; reflexivity.
    + lia.
    + rewrite count_matching_past_columns by exact Hlen. lia.
Qed.

Lemma update_policy_cardinality_witness :
  count_matching "p" ["alice"] (table (_engine two_alice)) <> 1%nat
  /\ exists e : exn,
       update_policy "p" "p" ["alice"] ["carol"] two_alice = (two_alice, Raise e)
       /\ ((List.length ["alice"] <= 6)%nat ->
           count_matching "p" ["alice"] (table (_engine two_alice)) = 0%nat ->
           e = NoResultFound)
       /\ ((1 < count_matching "p" ["alice"] (table (_engine two_alice)))%nat ->
           e = MultipleResultsFound).
Proof.
  split.
  - vm_compute. discriminate.
  - apply (update_policy_cardinality two_alice "p" "p" ["alice"] ["carol"]).
    vm_compute. discriminate.
Defined.

(** C5: when exactly one stored record matches [ptype] and [old_rule] (on a
    table with a unique primary key and a backend that accepts the commit),
    [update_policy] returns normally and rewrites that record alone: every
    position below [len(new_rule)] holds the new value, every position from
    there up to [max(len(old_rule), len(new_rule))] is unset, and the
    positions beyond are as they were; key and ptype are kept, and every
    other record is unchanged, at its place. *)
Theorem update_policy_overwrites (self : Adapter) (sec p : string)
    (old_rule new_rule : list string) :
  primary_key self ->
  healthy 1 self ->
  count_matching p old_rule (table (_engine self)) = 1%nat ->
  exists self' : Adapter,
    update_policy sec p old_rule new_rule self = (self', Ok tt)
    /\ forall (k : nat) (r : CasbinRule),
         nth_error (table (_engine self)) k = Some r ->
         exists r' : CasbinRule,
           nth_error (table (_engine self')) k = Some r'
           /\ if rule_matches p old_rule r
              then id r' = id r /\ ptype r' = ptype r
                   /\ forall i : nat, (i < 6)%nat ->
                        value_at i r'
                        = if (i <? List.length new_rule)%nat then nth_error new_rule i
                          else if (i <? Nat.max (List.length old_rule)
                                                (List.length new_rule))%nat
                               then None
                               else value_at i r
              else r' = r.
Proof.
  intros Hpk Hok Hcount. apply healthy_next in Hok.
  assert (List.length old_rule <= 6)%nat as Hlen.
  { destruct (Nat.leb_spec (List.length old_rule) 6) as [|Hgt]; [assumption|].
    rewrite count_matching_past_columns in Hcount by exact Hgt. discriminate. }
  rewrite update_policy_run by exact Hlen. rewrite Hok.
  unfold count_matching in Hcount.
  destruct (List.filter (rule_matches p old_rule) (table (_engine self)))
    as [|r0 [|r1 rs]] eqn:Hsel; simpl in Hcount; try discriminate.
  assert (In r0 (table (_engine self)) /\ rule_matches p old_rule r0 = true) as [Hin0 Hm0].
  { apply filter_In. rewrite Hsel. now left. }
  eexists. split; [reflexivity|].
  intros k r Hk. simpl. rewrite nth_error_map, Hk. simpl.
  eexists. split; [reflexivity|].
  rewrite overwrite_id.
  destruct (rule_matches p old_rule r) eqn:Hm.
  - assert (r = r0) as ->.
    { assert (In r (List.filter (rule_matches p old_rule) (table (_engine self)))) as Hin.
      { apply filter_In. split; [eapply nth_error_In; eassumption | assumption]. }
      rewrite Hsel in Hin. destruct Hin as [<-|[]]. reflexivity. }
    rewrite Z.eqb_refl.
    rewrite overwrite_id, overwrite_ptype. repeat split.
    intros i Hi. now apply overwrite_value_at.
  - destruct (Z.eqb_spec (id r) (id r0)) as [E|]; [|reflexivity].
    assert (r = r0) as ->.
    { apply (unique_by_id (table (_engine self))); auto.
      eapply nth_error_In; eassumption. }
    congruence.
Qed.

Lemma update_policy_overwrites_witness :
  exists self' : Adapter,
    update_policy "p" "p" ["bob"; "data2"; "write"] ["bob"; "data2"] two_alice = (self', Ok tt)
    /\ forall (k : nat) (r : CasbinRule),
         nth_error (table (_engine two_alice)) k = Some r ->
         exists r' : CasbinRule,
           nth_error (table (_engine self')) k = Some r'
           /\ if rule_matches "p" ["bob"; "data2"; "write"] r
              then id r' = id r /\ ptype r' = ptype r
                   /\ forall i : nat, (i < 6)%nat ->
                        value_at i r'
                        = if (i <? List.length ["bob"; "data2"])%nat
                          then nth_error ["bob"; "data2"] i
                          else if (i <? Nat.max (List.length ["bob"; "data2"; "write"])
                                                (List.length ["bob"; "data2"]))%nat
                               then None
                               else value_at i r
              else r' = r.
Proof.
  apply (update_policy_overwrites two_alice "p" "p" ["bob"; "data2"; "write"] ["bob"; "data2"]).
  - unfold primary_key. simpl. repeat constructor; simpl; intuition discriminate.
  - reflexivity.
  - reflexivity.
Defined.

Example update_policy_shrinks :
  table (_engine (fst (update_policy "p" "p" ["bob"; "data2"; "write"] ["bob"; "data2"]
                                     two_alice)))
  = [mkCasbinRule 1 "p" (Some "alice") (Some "data1") (Some "read") None None None;
     mkCasbinRule 2 "p" (Some "alice") (Some "data2") (Some "read") None None None;
     mkCasbinRule 3 "p" (Some "bob") (Some "data2") None None None None].
Proof. reflexivity. Qed.

End UpdatePolicy.

(** ** Deleting the rows a query matched *)

Section Deleting.

Lemma satisfies_filter (q : Query.t) (c : CasbinRule -> bool) (r : CasbinRule) :
  Query.satisfies (Query.filter q c) r = Query.satisfies q r && c r.
Proof.
  unfold Query.satisfies, Query.filter. simpl.
  rewrite forallb_app. simpl. now rewrite andb_true_r.
Qed.

Lemma mem_id_In (i : Z) (ids : list Z) : mem_id i ids = true <-> In i ids.
Proof.
  unfold mem_id. rewrite existsb_exists. split.
  - intros (x & Hx & E). apply Z.eqb_eq in E. now subst.
  - intros H. exists i. split; [assumption | apply Z.eqb_refl].
Qed.

(** With a unique primary key, deleting the keys of the matched rows deletes
    the matched rows and no other. *)
Lemma delete_matched (f : CasbinRule -> bool) (rows : list CasbinRule) :
  NoDup (map id rows) ->
  List.filter (fun r => negb (mem_id (id r) (map id (List.filter f rows)))) rows
  = List.filter (fun r => negb (f r)) rows.
Proof.
  intros Hnd. apply filter_ext_in. intros r Hr. f_equal.
  destruct (f r) eqn:Hf.
  - apply mem_id_In. apply in_map. apply filter_In. auto.
  - destruct (mem_id (id r) (map id (List.filter f rows))) eqn:Hm; [|reflexivity].
    apply mem_id_In in Hm. apply in_map_iff in Hm. destruct Hm as (r' & E & Hin).
    apply filter_In in Hin. destruct Hin as [Hin Hf'].
    assert (r' = r) by (eapply unique_by_id; eauto). congruence.
Qed.

End Deleting.

(** ** Transposing the rules of a batch *)

Section Transpose.

Lemma forallb_pointwise {A} (f g : A -> bool) (l : list A) :
  (forall x, f x = g x) -> forallb f l = forallb g l.
Proof. intros H. induction l as [|x l IH]; simpl; [reflexivity|]. now rewrite H, IH. Qed.

Lemma existsb_pointwise {A} (f g : A -> bool) (l : list A) :
  (forall x, f x = g x) -> existsb f l = existsb g l.
Proof. intros H. induction l as [|x l IH]; simpl; [reflexivity|]. now rewrite H, IH. Qed.

Lemma forallb_over_map {A B} (f : B -> bool) (g : A -> B) (l : list A) :
  forallb f (map g l) = forallb (fun x => f (g x)) l.
Proof. induction l as [|x l IH]; simpl; [reflexivity|]. now rewrite IH. Qed.

Lemma existsb_over_map {A B} (f : B -> bool) (g : A -> B) (l : list A) :
  existsb f (map g l) = existsb (fun x => f (g x)) l.
Proof. induction l as [|x l IH]; simpl; [reflexivity|]. now rewrite IH. Qed.

Lemma shortest_le_head {A} (l : list A) (rest : list (list A)) :
  (shortest (l :: rest) <= List.length l)%nat.
Proof. simpl. destruct rest; lia. Qed.

Lemma heads_none_shortest {A} (ls : list (list A)) :
  ls <> [] -> heads ls = None -> shortest ls = 0%nat.
Proof.
  induction ls as [|l rest IH]; intros Hne Hh; [congruence|].
  destruct l as [|x l].
  - simpl. destruct rest; reflexivity.
  - simpl in Hh. destruct (heads rest) eqn:Hr; [discriminate|].
    destruct rest as [|l2 rest']; [discriminate|].
    change (shortest ((x :: l) :: l2 :: rest')) with
      (Nat.min (List.length (x :: l)) (shortest (l2 :: rest'))).
    rewrite IH; [lia | discriminate | reflexivity].
Qed.

Lemma heads_some_shortest {A} (ls : list (list A)) (hs : list A) :
  ls <> [] -> heads ls = Some hs ->
  shortest ls = S (shortest (map (@tl A) ls)).
Proof.
  revert hs. induction ls as [|l rest IH]; intros hs Hne Hh; [congruence|].
  destruct l as [|x l]; [discriminate|].
  simpl in Hh. destruct (heads rest) as [hs'|] eqn:Hr; [|discriminate].
  destruct rest as [|l2 rest']; [reflexivity|].
  change (shortest ((x :: l) :: l2 :: rest')) with
    (Nat.min (List.length (x :: l)) (shortest (l2 :: rest'))).
  rewrite (IH hs') by (discriminate || reflexivity).
  simpl map.
  change (shortest (l :: tl l2 :: map (@tl A) rest')) with
    (Nat.min (List.length l) (shortest (tl l2 :: map (@tl A) rest'))).
  simpl List.length. simpl map. lia.
Qed.

Lemma heads_some_first {A} (P : A -> bool) (ls : list (list A)) (hs : list A) :
  heads ls = Some hs ->
  existsb P hs
  = existsb (fun l => match nth_error l 0 with Some v => P v | None => false end) ls.
Proof.
  revert hs. induction ls as [|l rest IH]; intros hs Hh.
  - injection Hh as <-. reflexivity.
  - destruct l as [|x l]; [discriminate|].
    simpl in Hh. destruct (heads rest) as [hs'|] eqn:Hr; [|discriminate].
    injection Hh as <-. simpl. now rewrite (IH hs').
Qed.

Lemma columns_match_zip_steps (r : CasbinRule) (fuel : nat) :
  forall (k : nat) (ls : list (list string)),
    ls <> [] ->
    columns_match k (zip_steps fuel ls) r
    = forallb (fun d =>
                 existsb (fun l => match nth_error l d with
                                   | Some v => Query.eq_ (value_at (k + d)) v r
                                   | None => false
                                   end) ls)
              (seq 0 (Nat.min fuel (shortest ls))).
Proof.
  induction fuel as [|fuel IH]; intros k ls Hne; [reflexivity|].
  simpl zip_steps. destruct (heads ls) as [hs|] eqn:Hh.
  - rewrite (heads_some_shortest ls hs Hne Hh).
    rewrite <- Nat.succ_min_distr. simpl seq. rewrite <- seq_shift.
    unfold columns_match. simpl. fold (columns_match (S k) (zip_steps fuel (map (@tl string) ls)) r).
    rewrite IH by (destruct ls; [congruence | discriminate]).
    rewrite forallb_over_map.
    rewrite (heads_some_first _ ls hs Hh), Nat.add_0_r. f_equal.
    apply forallb_pointwise. intros d. rewrite existsb_over_map.
    apply existsb_pointwise. intros l.
    replace (S k + d)%nat with (k + S d)%nat by lia.
    destruct l; [destruct d|]; reflexivity.
  - rewrite (heads_none_shortest ls Hne Hh), Nat.min_0_r. reflexivity.
Qed.

(** The criterion built from the transposed batch is the relaxed match. *)
Lemma columns_match_zip_star (p : string) (rules : list (list string)) (r : CasbinRule) :
  rules <> [] ->
  (ptype r =? p) && columns_match 0 (zip_star rules) r = relaxed_match p rules r.
Proof.
  intros Hne. unfold relaxed_match. f_equal.
  destruct rules as [|l rest]; [congruence|].
  unfold zip_star. rewrite columns_match_zip_steps by discriminate.
  rewrite Nat.min_r by apply shortest_le_head.
  reflexivity.
Qed.

Lemma zip_star_length (rules : list (list string)) :
  rules <> [] -> List.length (zip_star rules) = shortest rules.
Proof.
  intros Hne. destruct rules as [|l rest]; [congruence|].
  unfold zip_star.
  assert (forall fuel (ls : list (list string)), ls <> [] ->
            List.length (zip_steps fuel ls) = Nat.min fuel (shortest ls)) as H.
  { induction fuel as [|fuel IH]; intros ls Hls; [reflexivity|].
    simpl zip_steps. destruct (heads ls) as [hs|] eqn:Hh.
    - rewrite (heads_some_shortest ls hs Hls Hh), <- Nat.succ_min_distr. simpl.
      rewrite IH; [reflexivity | destruct ls; [congruence | discriminate]].
    - rewrite (heads_none_shortest ls Hls Hh), Nat.min_0_r. reflexivity. }
  rewrite H by discriminate. apply Nat.min_r, shortest_le_head.
Qed.

End Transpose.

(** ** remove_policies *)

Section RemovePolicies.

Lemma column_clauses {St : Type} (i : nat) (col : list string) (s : St) :
  (i < 6)%nat ->
  mapM (fun v => c <- getattr_ (format_v (Z.of_nat i)) ;; ret (Query.eq_ c v)) col s
  = (s, Ok (map (Query.eq_ (value_at i)) col)).
Proof.
  intros Hi.
  assert (getattr (format_v (Z.of_nat i)) = Some (value_at i)) as E.
  { rewrite getattr_index. destruct (Nat.ltb_spec i 6); [reflexivity | lia]. }
  unfold getattr_. rewrite E.
  induction col as [|v col IH]; [reflexivity|].
  simpl mapM. unfold bind, ret in *. rewrite IH. reflexivity.
Qed.

Lemma transposed_criteria {St : Type} (cols : list (list string)) :
  forall (k : nat) (query : Query.t) (s : St),
    (k + List.length cols <= 6)%nat ->
    exists q' : Query.t,
      foldM (fun query irule =>
               clauses <- mapM (fun v =>
                            col <- getattr_ (format_v (Z.of_nat (fst irule))) ;;
                            ret (Query.eq_ col v))
                          (snd irule) ;;
               ret (Query.filter query (Query.or_ clauses)))
            (combine (seq k (List.length cols)) cols) query s
      = (s, Ok q')
      /\ Query.ordered q' = Query.ordered query
      /\ forall r, Query.satisfies q' r = Query.satisfies query r && columns_match k cols r.
Proof.
  induction cols as [|col cols IH]; intros k query s Hk.
  - exists query. simpl. repeat split. intros r. unfold columns_match. simpl.
    now rewrite andb_true_r.
  - simpl in Hk. simpl combine. simpl foldM. unfold bind at 1. unfold bind at 1.
    simpl fst. simpl snd. rewrite column_clauses by lia. unfold ret at 1.
    destruct (IH (S k) (Query.filter query (Query.or_ (map (Query.eq_ (value_at k)) col))) s)
      as (q' & Hrun & Hord & Hsat); [lia|].
    exists q'. split; [exact Hrun|]. split; [exact Hord|].
    intros r. rewrite Hsat, satisfies_filter. unfold columns_match. simpl.
    unfold Query.or_. rewrite existsb_over_map. now rewrite andb_assoc.
Qed.

Lemma heads_length {A} (ls : list (list A)) (hs : list A) :
  heads ls = Some hs -> List.length hs = List.length ls.
Proof.
  revert hs. induction ls as [|l rest IH]; intros hs Hh.
  - injection Hh as <-. reflexivity.
  - destruct l as [|x l]; [discriminate|].
    simpl in Hh. destruct (heads rest) as [hs'|]; [|discriminate].
    injection Hh as <-. simpl. now rewrite (IH hs').
Qed.

Lemma zip_steps_columns {A} (fuel : nat) :
  forall ls : list (list A),
    Forall (fun col => List.length col = List.length ls) (zip_steps fuel ls).
Proof.
  induction fuel as [|fuel IH]; intros ls; simpl; [constructor|].
  destruct (heads ls) as [hs|] eqn:Hh; constructor.
  - now apply heads_length.
  - specialize (IH (map (@tl A) ls)). now rewrite length_map in IH.
Qed.

Lemma transposed_past_columns {St : Type} (cols : list (list string)) :
  forall (k : nat) (query : Query.t) (s : St),
    Forall (fun col => col <> []) cols ->
    (k <= 6 < k + List.length cols)%nat ->
    foldM (fun query irule =>
             clauses <- mapM (fun v =>
                          col <- getattr_ (format_v (Z.of_nat (fst irule))) ;;
                          ret (Query.eq_ col v))
                        (snd irule) ;;
             ret (Query.filter query (Query.or_ clauses)))
          (combine (seq k (List.length cols)) cols) query s
    = (s, Raise (AttributeError "v6")).
Proof.
  induction cols as [|col cols IH]; intros k query s Hne Hk.
  - simpl in Hk. lia.
  - inversion Hne as [|c cs Hcol Hrest]; subst.
    simpl in Hk. simpl combine. simpl foldM. simpl fst. simpl snd.
    destruct (Nat.ltb_spec k 6) as [Hlt|Hge].
    + unfold bind at 1. unfold bind at 1. rewrite column_clauses by exact Hlt.
      unfold ret at 1. apply IH; [exact Hrest | lia].
    + assert (k = 6)%nat as -> by lia.
      destruct col as [|v col]; [congruence|]. reflexivity.
Qed.

(** When every rule of the batch is longer than the six columns the query
    cannot be built: the call raises and nothing is deleted. *)
Lemma remove_policies_past_columns (self : Adapter) (sec p : string)
    (rules : list (list string)) :
  rules <> [] ->
  (6 < shortest rules)%nat ->
  remove_policies sec p rules self = (self, Raise (AttributeError "v6")).
Proof.
  intros Hne Hlen.
  destruct rules as [|l rest] eqn:Hrules; [congruence|]. rewrite <- Hrules in *.
  assert (remove_policies sec p rules self
          = _session_scope (
              let query := Query.query in
              let query := Query.filter query (Query.ptype_eq p) in
              let rules := zip_star rules in
              query <- foldM (fun query irule =>
                         clauses <- mapM (fun v =>
                                      col <- getattr_ (format_v (Z.of_nat (fst irule))) ;;
                                      ret (Query.eq_ col v))
                                    (snd irule) ;;
                         ret (Query.filter query (Query.or_ clauses)))
                       (enumerate rules) query ;;
              _ <- delete query ;;
              ret tt) self) as -> by (rewrite Hrules; reflexivity).
  cbv zeta. unfold _session_scope, enumerate.
  assert (Forall (fun col : list string => col <> []) (zip_star rules)) as Hcols.
  { rewrite Hrules. unfold zip_star.
    eapply Forall_impl; [|apply zip_steps_columns].
    intros col Hcol Hnil. subst col. discriminate Hcol. }
  assert (0 <= 6 < 0 + List.length (zip_star rules))%nat as Hk.
  { rewrite zip_star_length by exact Hne. lia. }
  rewrite (bind_raise _ _ _ _ _
             (transposed_past_columns (St := Scope) (zip_star rules) 0
                (Query.filter Query.query (Query.ptype_eq p)) (session_local, self)
                Hcols Hk)).
  reflexivity.
Qed.

Lemma relaxed_match_spec (p : string) (rules : list (list string)) (r : CasbinRule) :
  relaxed_match p rules r = true <->
  ptype r = p
  /\ forall i : nat, (i < shortest rules)%nat ->
       exists (rule : list string) (v : string),
         In rule rules /\ nth_error rule i = Some v /\ value_at i r = Some v.
Proof.
  unfold relaxed_match. rewrite andb_true_iff, String.eqb_eq, forallb_forall.
  split; intros [Hp H]; split; try exact Hp.
  - intros i Hi. specialize (H i ltac:(apply in_seq; lia)).
    apply existsb_exists in H. destruct H as (rule & Hin & Hm).
    destruct (nth_error rule i) as [v|] eqn:Hv; [|discriminate].
    unfold Query.eq_ in Hm. destruct (value_at i r) as [s0|] eqn:Hs; [|discriminate].
    apply String.eqb_eq in Hm. subst. eauto.
  - intros i Hi. apply in_seq in Hi. destruct (H i ltac:(lia)) as (rule & v & Hin & Hv & Hs).
    apply existsb_exists. exists rule. split; [exact Hin|].
    rewrite Hv. unfold Query.eq_. rewrite Hs. apply String.eqb_refl.
Qed.

(** C6: [remove_policies] with no rules does nothing.  With rules (the
    shortest of them within the six columns), on a table with a unique
    primary key and a backend that accepts the commit, it returns normally
    and the table keeps, in order, exactly the rows that do not have the
    given ptype together with, at each position below the length of the
    shortest rule, a value that occurs at that position in some rule of the
    batch.  The positions are matched independently of one another. *)
Theorem remove_policies_relaxed (self : Adapter) (sec p : string)
    (rules : list (list string)) :
  remove_policies sec p [] self = (self, Ok tt)
  /\ (rules <> [] ->
      (shortest rules <= 6)%nat ->
      primary_key self ->
      healthy 1 self ->
      exists self' : Adapter,
        remove_policies sec p rules self = (self', Ok tt)
        /\ table (_engine self')
           = List.filter (fun r => negb (relaxed_match p rules r)) (table (_engine self))
        /\ forall r : CasbinRule,
             relaxed_match p rules r = true <->
             ptype r = p
             /\ forall i : nat, (i < shortest rules)%nat ->
                  exists (rule : list string) (v : string),
                    In rule rules /\ nth_error rule i = Some v /\ value_at i r = Some v).
Proof.
  split; [reflexivity|].
  intros Hne Hlen Hpk Hok. apply healthy_next in Hok.
  destruct rules as [|l rest] eqn:Hrules; [congruence|]. rewrite <- Hrules in *.
  assert (remove_policies sec p rules self
          = _session_scope (
              let query := Query.query in
              let query := Query.filter query (Query.ptype_eq p) in
              let rules := zip_star rules in
              query <- foldM (fun query irule =>
                         clauses <- mapM (fun v =>
                                      col <- getattr_ (format_v (Z.of_nat (fst irule))) ;;
                                      ret (Query.eq_ col v))
                                    (snd irule) ;;
                         ret (Query.filter query (Query.or_ clauses)))
                       (enumerate rules) query ;;
              _ <- delete query ;;
              ret tt) self) as -> by (rewrite Hrules; reflexivity).
  cbv zeta. unfold _session_scope, enumerate. unfold bind at 1.
  destruct (transposed_criteria (St := Scope) (zip_star rules) 0
              (Query.filter Query.query (Query.ptype_eq p)) (session_local, self))
    as (q' & Hrun & Hord & Hsat).
  { rewrite zip_star_length by exact Hne. simpl. lia. }
  rewrite Hrun. unfold bind, delete, ret, commit, view, Query.select. simpl.
  rewrite Hord, Hok. simpl.
  eexists. split; [reflexivity|]. split.
  - simpl. unfold primary_key in Hpk. rewrite delete_matched by exact Hpk.
    apply filter_ext. intros r. f_equal. rewrite Hsat, satisfies_filter.
    rewrite <- columns_match_zip_star by exact Hne. reflexivity.
  - intros r. apply relaxed_match_spec.
Qed.

Lemma remove_policies_relaxed_witness :
  exists self' : Adapter,
    remove_policies "p" "p" [["alice"; "data1"]; ["bob"; "data2"]] mixed = (self', Ok tt)
    /\ table (_engine self')
       = List.filter
           (fun r => negb (relaxed_match "p" [["alice"; "data1"]; ["bob"; "data2"]] r))
           (table (_engine mixed))
    /\ forall r : CasbinRule,
         relaxed_match "p" [["alice"; "data1"]; ["bob"; "data2"]] r = true <->
         ptype r = "p"
         /\ forall i : nat,
              (i < shortest [["alice"; "data1"]; ["bob"; "data2"]])%nat ->
              exists (rule : list string) (v : string),
                In rule [["alice"; "data1"]; ["bob"; "data2"]]
                /\ nth_error rule i = Some v /\ value_at i r = Some v.
Proof.
  apply (proj2 (remove_policies_relaxed mixed "p" "p" [["alice"; "data1"]; ["bob"; "data2"]])).
  - discriminate.
  - simpl. lia.
  - unfold primary_key. simpl. repeat constructor; simpl; intuition discriminate.
  - reflexivity.
Defined.

(** The row (alice, data2) takes its subject from one rule of the batch and
    its object from the other: it is deleted with the row (alice, data1). *)
Example remove_policies_crosses_rules :
  table (_engine (fst (remove_policies "p" "p" [["alice"; "data1"]; ["bob"; "data2"]] mixed)))
  = [mkCasbinRule 3 "p" (Some "carol") (Some "data1") (Some "read") None None None;
     mkCasbinRule 4 "g" (Some "alice") (Some "data1") None None None None].
Proof. reflexivity. Qed.

End RemovePolicies.

(** ** remove_filtered_policy *)

Section RemoveFiltered.

Lemma filtered_criteria {St : Type} (field_index : Z) (field_values : list string) :
  forall (k : nat) (query : Query.t) (s : St),
    (0 <= field_index)%Z ->
    (field_index + Z.of_nat (k + List.length field_values) <= 6)%Z ->
    exists q' : Query.t,
      foldM (fun query iv =>
               if negb (snd iv =? "") then
                 v_value <- getattr_ (format_v (field_index + Z.of_nat (fst iv))) ;;
                 ret (Query.filter query (Query.eq_ v_value (snd iv)))
               else ret query)
            (combine (seq k (List.length field_values)) field_values) query s
      = (s, Ok q')
      /\ Query.ordered q' = Query.ordered query
      /\ forall r,
           Query.satisfies q' r
           = Query.satisfies query r
             && forallb (fun iv =>
                           if snd iv =? "" then true
                           else Query.eq_ (value_at (Z.to_nat (field_index + Z.of_nat (fst iv))))
                                          (snd iv) r)
                        (combine (seq k (List.length field_values)) field_values).
Proof.
  match goal with |- forall k query s, _ -> _ -> exists q', foldM ?f _ _ _ = _ /\ _ =>
    set (step := f) end.
  induction field_values as [|v vs IH]; intros k query s H0 H6.
  - exists query. simpl. repeat split. intros r. now rewrite andb_true_r.
  - simpl List.length in *. simpl combine. simpl foldM.
    destruct (v =? "") eqn:Ev.
    + assert (step query (k, v) s = (s, Ok query)) as Hstep.
      { unfold step. cbn [fst snd]. rewrite Ev. reflexivity. }
      rewrite (bind_ok _ _ _ _ _ Hstep).
      destruct (IH (S k) query s H0) as (q' & Hrun & Hord & Hsat); [lia|].
      exists q'. split; [exact Hrun|]. split; [exact Hord|].
      intros r. rewrite Hsat. simpl. now rewrite Ev.
    + assert (step query (k, v) s
              = (s, Ok (Query.filter query
                          (Query.eq_ (value_at (Z.to_nat (field_index + Z.of_nat k))) v))))
        as Hstep.
      { unfold step. cbn [fst snd]. rewrite Ev. cbn [negb].
        unfold getattr_. rewrite getattr_format_v.
        destruct (Z.leb_spec 0 (field_index + Z.of_nat k)); [|lia].
        destruct (Z.ltb_spec (field_index + Z.of_nat k) 6); [|lia].
        reflexivity. }
      rewrite (bind_ok _ _ _ _ _ Hstep).
      match goal with
      | |- context [foldM step _ ?q s] =>
          destruct (IH (S k) q s H0) as (q' & Hrun & Hord & Hsat); [lia|]
      end.
      exists q'. split; [exact Hrun|]. split; [exact Hord|].
      intros r. rewrite Hsat, satisfies_filter. simpl. rewrite Ev.
      now rewrite andb_assoc.
Qed.

Lemma filtered_match_spec (p : string) (field_index : Z) (field_values : list string)
    (r : CasbinRule) :
  filtered_match p field_index field_values r = true <->
  ptype r = p
  /\ forall (offset : nat) (v : string),
       nth_error field_values offset = Some v -> v <> "" ->
       value_at (Z.to_nat (field_index + Z.of_nat offset)) r = Some v.
Proof.
  unfold filtered_match, enumerate.
  rewrite andb_true_iff, String.eqb_eq.
  assert (forall k,
    forallb (fun iv => if snd iv =? "" then true
                       else Query.eq_ (value_at (Z.to_nat (field_index + Z.of_nat (fst iv))))
                                      (snd iv) r)
            (combine (seq k (List.length field_values)) field_values) = true
    <-> forall offset v, nth_error field_values offset = Some v -> v <> "" ->
          value_at (Z.to_nat (field_index + Z.of_nat (k + offset))) r = Some v) as H.
  { induction field_values as [|v0 vs IH]; intros k; simpl.
    - split; [|reflexivity]. intros _ [|o] v; discriminate.
    - rewrite andb_true_iff, IH. split.
      + intros [Hv Hrest] [|o] v Hn Hne; simpl in Hn.
        * injection Hn as ->. rewrite Nat.add_0_r.
          destruct (String.eqb_spec v ""); [contradiction|].
          unfold Query.eq_ in Hv.
          destruct (value_at (Z.to_nat (field_index + Z.of_nat k)) r); [|discriminate].
          apply String.eqb_eq in Hv. now subst.
        * replace (k + S o)%nat with (S k + o)%nat by lia. now apply Hrest.
      + intros Hall. split.
        * destruct (String.eqb_spec v0 ""); [reflexivity|].
          unfold Query.eq_. rewrite <- (Nat.add_0_r k).
          rewrite (Hall 0%nat v0 eq_refl) by assumption. apply String.eqb_refl.
        * intros o v Hn Hne. replace (S k + o)%nat with (k + S o)%nat by lia.
          now apply Hall. }
  rewrite (H 0%nat). simpl. tauto.
Qed.

Lemma some_row_matches (f : CasbinRule -> bool) (rows : list CasbinRule) :
  (if (0 <? List.length (List.filter f rows))%nat then true else false) = true
  <-> exists r, In r rows /\ f r = true.
Proof.
  split.
  - destruct (List.filter f rows) as [|r rs] eqn:E; simpl; [discriminate|].
    intros _. exists r. apply filter_In. rewrite E. now left.
  - intros (r & Hr). apply filter_In in Hr.
    destruct (List.filter f rows); [contradiction | reflexivity].
Qed.

(** C8: when [field_index] is outside [0, 5] or [field_index +
    len(field_values)] is outside [1, 6], [remove_filtered_policy] returns
    False and the adapter and its storage are exactly as before.  On a valid
    call (unique primary key, the backend accepts the commit) it deletes the
    rows that have the given ptype and, at each offset from [field_index],
    the given value unless that value is the empty string; it keeps the
    others in order, and returns True exactly when some row was deleted. *)
Theorem remove_filtered_policy_bounds (self : Adapter) (sec p : string)
    (field_index : Z) (field_values : list string) :
  ((field_index < 0 \/ 5 < field_index
    \/ field_index + Z.of_nat (List.length field_values) < 1
    \/ 6 < field_index + Z.of_nat (List.length field_values))%Z ->
   remove_filtered_policy sec p field_index field_values self = (self, Ok false))
  /\ ((0 <= field_index <= 5)%Z ->
      (1 <= field_index + Z.of_nat (List.length field_values) <= 6)%Z ->
      primary_key self ->
      healthy 1 self ->
      exists (self' : Adapter) (b : bool),
        remove_filtered_policy sec p field_index field_values self = (self', Ok b)
        /\ table (_engine self')
           = List.filter (fun r => negb (filtered_match p field_index field_values r))
                         (table (_engine self))
        /\ (b = true <->
            exists r, In r (table (_engine self))
                      /\ filtered_match p field_index field_values r = true)
        /\ forall r : CasbinRule,
             filtered_match p field_index field_values r = true <->
             ptype r = p
             /\ forall (offset : nat) (v : string),
                  nth_error field_values offset = Some v -> v <> "" ->
                  value_at (Z.to_nat (field_index + Z.of_nat offset)) r = Some v).
Proof.
  split.
  - intros Hbad. unfold remove_filtered_policy, _session_scope. unfold bind at 1.
    destruct (Z.leb_spec 0 field_index); destruct (Z.leb_spec field_index 5);
      destruct (Z.leb_spec 1 (field_index + Z.of_nat (List.length field_values)));
      destruct (Z.leb_spec (field_index + Z.of_nat (List.length field_values)) 6);
      try lia; destruct self; reflexivity.
  - intros Hfi Hsum Hpk Hok. apply healthy_next in Hok.
    unfold remove_filtered_policy, _session_scope. unfold bind at 1.
    destruct (Z.leb_spec 0 field_index); [|lia].
    destruct (Z.leb_spec field_index 5); [|lia].
    destruct (Z.leb_spec 1 (field_index + Z.of_nat (List.length field_values))); [|lia].
    destruct (Z.leb_spec (field_index + Z.of_nat (List.length field_values)) 6); [|lia].
    cbn [negb andb].
    destruct (filtered_criteria (St := Scope) field_index field_values 0
                (Query.filter Query.query (Query.ptype_eq p)) (session_local, self))
      as (q' & Hrun & Hord & Hsat); [lia | simpl; lia |].
    unfold enumerate. rewrite (bind_ok _ _ _ _ _ Hrun).
    unfold bind, delete, ret, commit, view, Query.select. simpl.
    rewrite Hord, Hok. simpl.
    assert (forall r, Query.satisfies q' r = filtered_match p field_index field_values r)
      as Hsat'.
    { intros r. rewrite Hsat, satisfies_filter. reflexivity. }
    eexists. eexists. split; [reflexivity|]. split; [|split].
    + simpl. unfold primary_key in Hpk. rewrite delete_matched by exact Hpk.
      apply filter_ext. intros r. now rewrite Hsat'.
    + rewrite (filter_ext _ _ Hsat'). apply some_row_matches.
    + intros r. apply filtered_match_spec.
Qed.

Lemma remove_filtered_policy_bounds_witness :
  remove_filtered_policy "p" "p" 5 ["read"; "x"] mixed = (mixed, Ok false)
  /\ exists (self' : Adapter) (b : bool),
       remove_filtered_policy "p" "p" 1 ["data1"] mixed = (self', Ok b)
       /\ table (_engine self')
          = List.filter (fun r => negb (filtered_match "p" 1 ["data1"] r))
                        (table (_engine mixed))
       /\ (b = true <->
           exists r, In r (table (_engine mixed)) /\ filtered_match "p" 1 ["data1"] r = true).
Proof.
  split.
  - apply (proj1 (remove_filtered_policy_bounds mixed "p" "p" 5 ["read"; "x"])).
    simpl. lia.
  - destruct (proj2 (remove_filtered_policy_bounds mixed "p" "p" 1 ["data1"]))
      as (self' & b & Hrun & Htable & Hb & _).
    + lia.
    + simpl. lia.
    + unfold primary_key. simpl. repeat constructor; simpl; intuition discriminate.
    + reflexivity.
    + exists self', b. auto.
Defined.

(** [remove_filtered_policy(sec, "p", 1, "data1")] deletes the rows of ptype
    "p" whose [v1] is "data1", whatever their other values. *)
Example remove_filtered_policy_data1 :
  remove_filtered_policy "p" "p" 1 ["data1"] mixed
  = (mkAdapter
       (mkStore [mkCasbinRule 2 "p" (Some "alice") (Some "data2") (Some "read") None None None;
                 mkCasbinRule 4 "g" (Some "alice") (Some "data1") None None None None]
                5 [])
       false,
     Ok true).
Proof. reflexivity. Qed.

Example remove_filtered_policy_wildcard :
  table (_engine (fst (remove_filtered_policy "p" "p" 0 [""; "data1"] mixed)))
  = [mkCasbinRule 2 "p" (Some "alice") (Some "data2") (Some "read") None None None;
     mkCasbinRule 4 "g" (Some "alice") (Some "data1") None None None None].
Proof. reflexivity. Qed.

End RemoveFiltered.

(** ** Loading *)

Section LoadingProofs.

Variable load_policy_line : string -> Model -> Model.

Lemma insert_by_id_perm (r : CasbinRule) (rs : list CasbinRule) :
  Permutation (Query.insert_by_id r rs) (r :: rs).
Proof.
  induction rs as [|r' rs IH]; simpl; [apply Permutation_refl|].
  destruct (id r <=? id r')%Z; [apply Permutation_refl|].
  eapply perm_trans; [apply perm_skip, IH | apply perm_swap].
Qed.

Lemma sort_by_id_perm (rs : list CasbinRule) : Permutation (Query.sort_by_id rs) rs.
Proof.
  induction rs as [|r rs IH]; simpl; [constructor|].
  eapply perm_trans; [apply insert_by_id_perm | now apply perm_skip].
Qed.

Lemma insert_by_id_sorted (r : CasbinRule) (rs : list CasbinRule) :
  StronglySorted id_le rs -> StronglySorted id_le (Query.insert_by_id r rs).
Proof.
  induction rs as [|r' rs IH]; intros Hs; simpl.
  - repeat constructor.
  - inversion Hs as [|x xs Hs' Hall]; subst.
    destruct (Z.leb_spec (id r) (id r')) as [Hle|Hgt].
    + constructor; [exact Hs|]. constructor; [exact Hle|].
      eapply Forall_impl; [|exact Hall]. unfold id_le. intros; lia.
    + constructor; [now apply IH|].
      eapply Permutation_Forall; [apply Permutation_sym, insert_by_id_perm|].
      constructor; [unfold id_le; lia | exact Hall].
Qed.

Lemma sort_by_id_sorted (rs : list CasbinRule) : StronglySorted id_le (Query.sort_by_id rs).
Proof.
  induction rs as [|r rs IH]; simpl; [constructor | now apply insert_by_id_sorted].
Qed.

Lemma filter_all {A} (l : list A) : List.filter (fun _ => true) l = l.
Proof. induction l as [|x l IH]; simpl; [reflexivity | now rewrite IH]. Qed.

Lemma load_policy_run (m : Model) (self : Adapter) :
  next_fault (_engine self) = false ->
  load_policy load_policy_line m self
  = (set_engine self (consume_fault (_engine self)),
     Ok (feed load_policy_line (table (_engine self)) m)).
Proof.
  intros Hok. unfold load_policy, _session_scope, bind, all, ret, commit, view. simpl.
  rewrite Hok. unfold Query.select, Query.satisfies. simpl. rewrite filter_all.
  destruct self as [[t n f] fl]. reflexivity.
Qed.

(** C9: with a filter whose seven value sets are empty (and a backend that
    accepts the commit), [load_filtered_policy] feeds the model the rows
    that [load_policy] feeds it, the whole table, each once, and feeds them
    in ascending order of [id]. *)
Theorem load_filtered_policy_empty_filter (m : Model) (filter : Filter.t) (self : Adapter) :
  Filter.ptype filter = [] -> Filter.v0 filter = [] -> Filter.v1 filter = [] ->
  Filter.v2 filter = [] -> Filter.v3 filter = [] -> Filter.v4 filter = [] ->
  Filter.v5 filter = [] ->
  healthy 1 self ->
  exists (rows : list CasbinRule) (self' self'' : Adapter),
    load_filtered_policy load_policy_line m filter self
      = (self', Ok (feed load_policy_line rows m))
    /\ load_policy load_policy_line m self
       = (self'', Ok (feed load_policy_line (table (_engine self)) m))
    /\ Permutation rows (table (_engine self))
    /\ StronglySorted id_le rows
    /\ table (_engine self') = table (_engine self)
    /\ table (_engine self'') = table (_engine self).
Proof.
  intros Hp H0 H1 H2 H3 H4 H5 Hok. apply healthy_next in Hok.
  exists (Query.sort_by_id (table (_engine self))).
  rewrite (load_policy_run m self Hok).
  unfold load_filtered_policy, _session_scope, bind, all, commit, view, filter_query.
  rewrite Hp, H0, H1, H2, H3, H4, H5. simpl.
  rewrite Hok. unfold Query.select, Query.satisfies. simpl. rewrite filter_all.
  eexists. eexists. split; [reflexivity|]. split; [reflexivity|].
  split; [apply sort_by_id_perm|]. split; [apply sort_by_id_sorted|].
  split; reflexivity.
Qed.

Lemma str_of_record (i : Z) (p : string) (rule : list string) :
  (List.length rule <= 6)%nat ->
  __str__ (record_of i p rule) = String.concat ", " (p :: rule).
Proof.
  intros Hlen.
  destruct rule as [|a0 [|a1 [|a2 [|a3 [|a4 [|a5 [|a6 rest]]]]]]];
    simpl in Hlen; try lia; reflexivity.
Qed.

Lemma healthy_2 (self : Adapter) :
  healthy 2 self ->
  next_fault (_engine self) = false
  /\ hd false (tl (faults (_engine self))) = false.
Proof.
  unfold healthy, next_fault.
  destruct (faults (_engine self)) as [|[|] [|[|] fs]]; simpl; intuition congruence.
Qed.

(** C7: for a rule tuple of at most six elements (on a backend that accepts
    the two commits), [add_policy] followed by [load_policy] feeds the model
    the lines of the rows that were there and then, for the added rule, the
    line made of the ptype followed by the tuple's elements in order, joined
    by a comma and a space. *)
Theorem add_policy_load_policy_round_trip (m : Model) (self : Adapter) (sec p : string)
    (rule : list string) :
  (List.length rule <= 6)%nat ->
  healthy 2 self ->
  exists self1 self2 : Adapter,
    add_policy sec p rule self = (self1, Ok tt)
    /\ load_policy load_policy_line m self1
       = (self2,
          Ok (load_policy_line (String.concat ", " (p :: rule))
                (feed load_policy_line (table (_engine self)) m)))
    /\ exists line : CasbinRule,
         table (_engine self2) = table (_engine self) ++ [line]
         /\ __str__ line = String.concat ", " (p :: rule).
Proof.
  intros Hlen Hok. apply healthy_2 in Hok. destruct Hok as [Hok1 Hok2].
  unfold add_policy. rewrite _save_policy_line_run, Hok1.
  eexists. eexists. split; [reflexivity|].
  rewrite load_policy_run by exact Hok2.
  simpl. unfold feed. rewrite fold_left_app. simpl.
  rewrite str_of_record by exact Hlen.
  split; [reflexivity|].
  eexists. split; [reflexivity|]. now apply str_of_record.
Qed.

End LoadingProofs.

Lemma load_filtered_policy_empty_filter_witness :
  exists (rows : list CasbinRule) (self' self'' : Adapter),
    load_filtered_policy trace_line (mkModel []) Filter.default mixed
      = (self', Ok (feed trace_line rows (mkModel [])))
    /\ load_policy trace_line (mkModel []) mixed
       = (self'', Ok (feed trace_line (table (_engine mixed)) (mkModel [])))
    /\ Permutation rows (table (_engine mixed))
    /\ StronglySorted id_le rows
    /\ table (_engine self') = table (_engine mixed)
    /\ table (_engine self'') = table (_engine mixed).
Proof.
  apply (load_filtered_policy_empty_filter trace_line (mkModel []) Filter.default mixed);
    reflexivity.
Defined.

Lemma add_policy_load_policy_round_trip_witness :
  exists self1 self2 : Adapter,
    add_policy "p" "p" ["alice"; "data1"; "read"] fresh = (self1, Ok tt)
    /\ load_policy trace_line (mkModel []) self1
       = (self2,
          Ok (trace_line
                (String.concat ", " ("p" :: ["alice"; "data1"; "read"]))
                (feed trace_line
                      (table (_engine fresh)) (mkModel []))))
    /\ exists line : CasbinRule,
         table (_engine self2) = table (_engine fresh) ++ [line]
         /\ __str__ line = String.concat ", " ("p" :: ["alice"; "data1"; "read"]).
Proof.
  apply (add_policy_load_policy_round_trip
           trace_line
           (mkModel []) fresh "p" "p" ["alice"; "data1"; "read"]).
  - simpl. lia.
  - reflexivity.
Defined.

Example round_trip_line :
  snd (load_policy trace_line (mkModel [])
         (fst (add_policy "p" "p" ["alice"; "data1"; "read"] fresh)))
  = Ok (mkModel [("p, alice, data1, read", [])]).
Proof. reflexivity. Qed.

(** ** Properties that every method keeps *)

Section Preservation.

Context {St : Type} (P : St -> Prop).

Lemma preserves_ret {A} (a : A) : preserves P (ret a).
Proof. intros s H. exact H. Qed.

Lemma preserves_raise {A} (e : exn) : preserves P (@raise St A e).
Proof. intros s H. exact H. Qed.

Lemma preserves_bind {A B} (c : M St A) (k : A -> M St B) :
  preserves P c -> (forall a, preserves P (k a)) -> preserves P (bind c k).
Proof.
  intros Hc Hk s H. unfold bind. specialize (Hc s H).
  destruct (c s) as [s' [a|e]]; simpl in *; [|exact Hc].
  now apply Hk.
Qed.

Lemma preserves_forM_ {A} (xs : list A) (f : A -> M St unit) :
  (forall x, preserves P (f x)) -> preserves P (forM_ xs f).
Proof.
  intros Hf. induction xs as [|x xs IH]; simpl.
  - apply preserves_ret.
  - apply preserves_bind; auto.
Qed.

Lemma preserves_foldM {A B} (f : B -> A -> M St B) (xs : list A) :
  (forall acc x, preserves P (f acc x)) -> forall acc, preserves P (foldM f xs acc).
Proof.
  intros Hf. induction xs as [|x xs IH]; intros acc; simpl.
  - apply preserves_ret.
  - apply preserves_bind; auto.
Qed.

Lemma preserves_mapM {A B} (f : A -> M St B) (xs : list A) :
  (forall x, preserves P (f x)) -> preserves P (mapM f xs).
Proof.
  intros Hf. induction xs as [|x xs IH]; simpl.
  - apply preserves_ret.
  - apply preserves_bind; [auto|]. intros y. apply preserves_bind; [auto|].
    intros ys. apply preserves_ret.
Qed.

Lemma preserves_getattr_ (name : string) : preserves P (@getattr_ St name).
Proof.
  unfold getattr_. destruct (getattr name); [apply preserves_ret | apply preserves_raise].
Qed.

End Preservation.

Section PreservationInScope.

Variable P : Adapter -> Prop.

Lemma preserves_call_self {A} (c : M Adapter A) :
  preserves P c -> preserves (in_scope P) (call_self c).
Proof.
  intros Hc [session self] H. unfold call_self, in_scope in *. simpl in *.
  specialize (Hc self H). destruct (c self). exact Hc.
Qed.

Lemma preserves_all (q : Query.t) : preserves (in_scope P) (all q).
Proof. intros sc H. exact H. Qed.

Lemma preserves_one (q : Query.t) : preserves (in_scope P) (one q).
Proof.
  intros sc H. unfold one.
  destruct (Query.select q (view (fst sc) (_engine (snd sc)))) as [|r [|r' rs]]; exact H.
Qed.

Lemma preserves_delete (q : Query.t) : preserves (in_scope P) (delete q).
Proof. intros sc H. exact H. Qed.

Lemma preserves_add (line : CasbinRule) : preserves (in_scope P) (add line).
Proof. intros sc H. exact H. Qed.

Lemma preserves_modified (line : CasbinRule) : preserves (in_scope P) (modified line).
Proof. intros sc H. exact H. Qed.

Lemma preserves__session_scope {A} (body : M Scope A) :
  commit_stable P -> preserves (in_scope P) body -> preserves P (_session_scope body).
Proof.
  intros HP Hb self H. unfold _session_scope.
  specialize (Hb (session_local, self) H). unfold in_scope in Hb.
  destruct (body (session_local, self)) as [[session self'] [a|e]]; simpl in *.
  - specialize (HP self' session Hb).
    destruct (commit session (_engine self')) as [db [u|e]]; exact HP.
  - exact Hb.
Qed.

End PreservationInScope.

Create HintDb preservation.
#[local] Hint Resolve preserves_ret preserves_raise preserves_getattr_ preserves_all
  preserves_one preserves_delete preserves_add preserves_modified : preservation.

(** Walks down a method's body, one construct at a time. *)
Ltac preserve_step :=
  first
    [ progress intros
    | progress cbv beta zeta
    | solve [auto with preservation]
    | apply preserves_bind
    | apply preserves_forM_
    | apply preserves_foldM
    | apply preserves_mapM
    | apply preserves_call_self
    | apply preserves__session_scope; [assumption|]
    | match goal with
      | |- preserves _ (if ?b then _ else _) => destruct b
      | |- preserves _ (match ?x with _ => _ end) => destruct x
      end ].

Section PreservationOfMethods.

Variable P : Adapter -> Prop.
Hypothesis HP : commit_stable P.

Lemma preserves__save_policy_line p rule : preserves P (_save_policy_line p rule).
Proof. unfold _save_policy_line. repeat preserve_step. Qed.

Lemma preserves_save_policy m : preserves P (save_policy m).
Proof. unfold save_policy. repeat preserve_step. Qed.

Lemma preserves_add_policies sec p rules : preserves P (add_policies sec p rules).
Proof. unfold add_policies. repeat preserve_step. Qed.

Lemma preserves_remove_policy sec p rule : preserves P (remove_policy sec p rule).
Proof. unfold remove_policy, filter_by_rule. repeat preserve_step. Qed.

Lemma preserves_remove_policies sec p rules : preserves P (remove_policies sec p rules).
Proof. unfold remove_policies. repeat preserve_step. Qed.

Lemma preserves_remove_filtered_policy sec p i vs :
  preserves P (remove_filtered_policy sec p i vs).
Proof. unfold remove_filtered_policy. repeat preserve_step. Qed.

Lemma preserves_update_policy sec p o n : preserves P (update_policy sec p o n).
Proof. unfold update_policy, filter_by_rule. repeat preserve_step. Qed.

Lemma preserves_update_policies sec p os ns : preserves P (update_policies sec p os ns).
Proof. unfold update_policies. repeat preserve_step. Qed.

Lemma preserves_load_policy lpl m : preserves P (load_policy lpl m).
Proof. unfold load_policy. repeat preserve_step. Qed.

(** [load_filtered_policy] assigns the flag; it keeps what does not depend
    on the flag. *)
Lemma preserves_load_filtered_policy lpl m f :
  (forall self, P self -> P (mkAdapter (_engine self) true)) ->
  preserves P (load_filtered_policy lpl m f).
Proof.
  intros Hflag. unfold load_filtered_policy. repeat preserve_step.
  intros sc H. apply Hflag. exact H.
Qed.

(** Every call other than [load_filtered_policy]. *)
Lemma preserves_other_call lpl (c : Call) :
  (forall m f, c <> LoadFilteredPolicy m f) ->
  forall self, P self -> P (after lpl c self).
Proof.
  intros Hc self H. destruct c; simpl.
  - now apply preserves_load_policy.
  - exact H.
  - exfalso. eapply Hc. reflexivity.
  - now apply preserves_save_policy.
  - now apply preserves__save_policy_line.
  - now apply preserves_add_policies.
  - now apply preserves_remove_policy.
  - now apply preserves_remove_policies.
  - now apply preserves_remove_filtered_policy.
  - now apply preserves_update_policy.
  - now apply preserves_update_policies.
Qed.

End PreservationOfMethods.

(** ** The filtered flag *)

Section FilteredLifetime.

Variable load_policy_line : string -> Model -> Model.

Lemma flag_commit_stable (b : bool) : commit_stable (fun self => _filtered self = b).
Proof. intros self session H. exact H. Qed.

Lemma load_filtered_policy_sets m f self :
  _filtered (fst (load_filtered_policy load_policy_line m f self)) = true.
Proof.
  unfold load_filtered_policy, _session_scope, bind, all, commit. simpl.
  destruct (next_fault (_engine self)); reflexivity.
Qed.

Lemma after_other_call (c : Call) (self : Adapter) :
  (forall m f, c <> LoadFilteredPolicy m f) ->
  _filtered (after load_policy_line c self) = _filtered self.
Proof.
  intros Hc.
  apply (preserves_other_call (fun s => _filtered s = _filtered self)
           (flag_commit_stable (_filtered self)) load_policy_line c Hc self).
  reflexivity.
Qed.

Lemma after_keeps_true (c : Call) (self : Adapter) :
  _filtered self = true -> _filtered (after load_policy_line c self) = true.
Proof.
  intros H. destruct c;
    try (rewrite after_other_call; [exact H | discriminate]).
  apply load_filtered_policy_sets.
Qed.

Lemma run_keeps_true (cs : list Call) :
  forall self : Adapter,
    _filtered self = true -> _filtered (run load_policy_line cs self) = true.
Proof.
  induction cs as [|c cs IH]; intros self H; [exact H|].
  apply IH. now apply after_keeps_true.
Qed.

(** C10: a successful [load_filtered_policy] leaves [is_filtered()] True;
    once it is True every call of the adapter, [load_policy] included, and
    every sequence of calls leaves it True; a call other than
    [load_filtered_policy] never changes it; so [is_filtered()] is False only
    on an adapter that was constructed with [filtered=False]. *)
Theorem filtered_flag_never_reset :
  (forall (m m' : Model) (filter : Filter.t) (self self' : Adapter),
      load_filtered_policy load_policy_line m filter self = (self', Ok m') ->
      is_filtered self' = true)
  /\ (forall (m : Model) (self : Adapter),
        is_filtered self = true ->
        is_filtered (fst (load_policy load_policy_line m self)) = true)
  /\ (forall (cs : list Call) (self : Adapter),
        is_filtered self = true ->
        is_filtered (run load_policy_line cs self) = true)
  /\ (forall (c : Call) (self : Adapter),
        (forall m f, c <> LoadFilteredPolicy m f) ->
        is_filtered (after load_policy_line c self) = is_filtered self)
  /\ (forall (cs : list Call) (engine : Store) (filtered : bool),
        is_filtered (run load_policy_line cs (__init__ engine filtered)) = false ->
        filtered = false).
Proof.
  unfold is_filtered. repeat split.
  - intros m m' filter self self' Hrun.
    pose proof (load_filtered_policy_sets m filter self) as H.
    now rewrite Hrun in H.
  - intros m self H.
    apply (after_keeps_true (LoadPolicy m) self H).
  - intros cs self H. now apply run_keeps_true.
  - intros c self Hc. now apply after_other_call.
  - intros cs engine [|] H; [|reflexivity].
    rewrite run_keeps_true in H by reflexivity. discriminate.
Qed.

End FilteredLifetime.

(** ** The primary key *)

Section PrimaryKey.

Lemma NoDup_map_filter {A B} (g : A -> B) (f : A -> bool) (l : list A) :
  NoDup (map g l) -> NoDup (map g (List.filter f l)).
Proof.
  induction l as [|x l IH]; simpl; intros H; [constructor|].
  inversion H as [|y ys Hnotin Hnd]; subst.
  destruct (f x); simpl; [|now apply IH].
  constructor; [|now apply IH].
  intros Hin. apply Hnotin. apply in_map_iff in Hin. destruct Hin as (z & E & Hz).
  apply filter_In in Hz. rewrite <- E. apply in_map. tauto.
Qed.

Lemma execute_well_keyed (db : Store) (st : Statement) :
  NoDup (map id (table db)) /\ Forall (fun r => (id r < next_id db)%Z) (table db) ->
  NoDup (map id (table (execute db st)))
  /\ Forall (fun r => (id r < next_id (execute db st))%Z) (table (execute db st)).
Proof.
  intros [Hnd Hlt]. destruct st as [ids|line|line]; simpl.
  - split; [now apply NoDup_map_filter|].
    rewrite Forall_forall in *. intros r Hr. apply filter_In in Hr. now apply Hlt.
  - split.
    + rewrite map_app. simpl.
      eapply Permutation_NoDup; [apply Permutation_cons_append|].
      constructor; [|exact Hnd].
      intros Hin. apply in_map_iff in Hin. destruct Hin as (r & E & Hr).
      rewrite Forall_forall in Hlt. specialize (Hlt r Hr). lia.
    + apply Forall_app. split.
      * eapply Forall_impl; [|exact Hlt]. simpl. intros; lia.
      * constructor; [simpl; lia | constructor].
  - assert (map id (map (fun r => if (id r =? id line)%Z then line else r) (table db))
            = map id (table db)) as E.
    { rewrite map_map. apply map_ext. intros r.
      destruct (Z.eqb_spec (id r) (id line)); congruence. }
    split; [now rewrite E|].
    rewrite Forall_forall in *. intros r Hr. apply in_map_iff in Hr.
    destruct Hr as (r0 & E0 & Hr0). specialize (Hlt r0 Hr0).
    destruct (Z.eqb_spec (id r0) (id line)); subst; lia.
Qed.

Lemma execute_all_well_keyed (ss : list Statement) :
  forall db : Store,
    NoDup (map id (table db)) /\ Forall (fun r => (id r < next_id db)%Z) (table db) ->
    NoDup (map id (table (execute_all db ss)))
    /\ Forall (fun r => (id r < next_id (execute_all db ss))%Z) (table (execute_all db ss)).
Proof.
  induction ss as [|st ss IH]; intros db H; [exact H|].
  simpl. apply IH. now apply execute_well_keyed.
Qed.

Lemma well_keyed_commit_stable : commit_stable well_keyed.
Proof.
  intros self session H. unfold well_keyed, commit in *.
  destruct (used session); [|exact H].
  destruct (next_fault (_engine self)); simpl; [exact H|].
  apply (execute_all_well_keyed (pending session) (consume_fault (_engine self))).
  exact H.
Qed.

(** Whatever the engine calls, in whatever order and whether the calls
    return or raise, the keys of the table stay unique and below the
    sequence. *)
Lemma well_keyed_invariant lpl (cs : list Call) :
  forall self : Adapter, well_keyed self -> well_keyed (run lpl cs self).
Proof.
  induction cs as [|c cs IH]; intros self H; [exact H|].
  simpl. apply IH.
  destruct c;
    try (apply (preserves_other_call well_keyed well_keyed_commit_stable);
         [discriminate | exact H]).
  simpl. apply (preserves_load_filtered_policy well_keyed well_keyed_commit_stable);
    [|exact H].
  intros s Hs. exact Hs.
Qed.

Lemma well_keyed_fresh : well_keyed fresh.
Proof. split; constructor. Qed.

Lemma well_keyed_primary_key (self : Adapter) : well_keyed self -> primary_key self.
Proof. intros [H _]. exact H. Qed.

Lemma well_keyed_keys_below_sequence (self : Adapter) :
  well_keyed self -> keys_below_sequence self.
Proof. intros [_ H]. exact H. Qed.

End PrimaryKey.

Lemma filtered_flag_never_reset_witness :
  is_filtered
    (run trace_line
         [LoadFilteredPolicy (mkModel []) Filter.default;
          LoadPolicy (mkModel []);
          AddPolicy "p" "p" ["alice"; "data1"; "read"];
          UpdatePolicy "p" "p" ["bob"] ["carol"];
          SavePolicy (mkModel [])]
         fresh)
  = true.
Proof.
  apply (proj1 (proj2 (proj2 (filtered_flag_never_reset trace_line)))
           [LoadPolicy (mkModel []);
            AddPolicy "p" "p" ["alice"; "data1"; "read"];
            UpdatePolicy "p" "p" ["bob"] ["carol"];
            SavePolicy (mkModel [])]
           (after trace_line (LoadFilteredPolicy (mkModel []) Filter.default) fresh)).
  apply (proj1 (filtered_flag_never_reset trace_line)
           (mkModel []) (mkModel []) Filter.default fresh
           (after trace_line (LoadFilteredPolicy (mkModel []) Filter.default) fresh)).
  reflexivity.
Defined.

(** ** save_policy *)

Section SavePolicy.

Example save_policy_reliable :
  save_policy policy_model reliable
  = (mkAdapter
       (mkStore [mkCasbinRule 2 "p" (Some "bob") (Some "data2") (Some "write") None None None;
                 mkCasbinRule 3 "p" (Some "carol") (Some "data3") (Some "read") None None None;
                 mkCasbinRule 4 "g" (Some "alice") (Some "admin") None None None None]
                5 [])
       false,
     Ok true).
Proof. reflexivity. Qed.

Lemma records_of_pairs_app (i : Z) (xs ys : list (string * list string)) :
  records_of_pairs i (xs ++ ys)
  = records_of_pairs i xs ++ records_of_pairs (i + Z.of_nat (List.length xs)) ys.
Proof.
  revert i. induction xs as [|x xs IH]; intros i.
  - simpl. now rewrite Z.add_0_r.
  - simpl records_of_pairs. rewrite IH. simpl List.length.
    replace (i + 1 + Z.of_nat (List.length xs))%Z
      with (i + Z.of_nat (S (List.length xs)))%Z by lia.
    reflexivity.
Qed.

Lemma records_of_pairs_keys (prs : list (string * list string)) :
  forall i : Z, Forall (fun r => (i <= id r)%Z) (records_of_pairs i prs).
Proof.
  induction prs as [|pr prs IH]; intros i; simpl; constructor.
  - simpl. lia.
  - eapply Forall_impl; [|apply IH]. simpl. intros; lia.
Qed.

Lemma stored_nil (self : Adapter) : faults (_engine self) = [] -> stored self [] = self.
Proof.
  destruct self as [[t n f] fl]. simpl. intros ->. unfold stored, set_engine. simpl.
  now rewrite app_nil_r, Z.add_0_r.
Qed.

Lemma stored_app (self : Adapter) (xs ys : list (string * list string)) :
  stored (stored self xs) ys = stored self (xs ++ ys).
Proof.
  unfold stored, set_engine. simpl.
  rewrite records_of_pairs_app, <- app_assoc, length_app, Nat2Z.inj_add, Z.add_assoc.
  reflexivity.
Qed.

Lemma _save_policy_line_reliable (p : string) (rule : list string) (self : Adapter) :
  faults (_engine self) = [] ->
  _save_policy_line p rule self = (stored self [(p, rule)], Ok tt).
Proof.
  intros Hf. rewrite _save_policy_line_run. unfold next_fault, stored. rewrite Hf. reflexivity.
Qed.

Lemma save_rules_reliable (p : string) (rules : list (list string)) :
  forall (session : Session) (self : Adapter),
    faults (_engine self) = [] ->
    forM_ rules (fun rule => call_self (_save_policy_line p rule)) (session, self)
    = ((session, stored self (map (pair p) rules)), Ok tt).
Proof.
  induction rules as [|rule rules IH]; intros session self Hf.
  - simpl. now rewrite stored_nil.
  - simpl forM_. unfold bind at 1. unfold call_self at 1. simpl fst. simpl snd.
    rewrite _save_policy_line_reliable by exact Hf.
    rewrite IH by reflexivity. now rewrite stored_app.
Qed.

Lemma save_section_reliable (asts : list (string * Assertion)) :
  forall (session : Session) (self : Adapter),
    faults (_engine self) = [] ->
    forM_ asts (fun item =>
      forM_ (policy (snd item)) (fun rule =>
        call_self (_save_policy_line (fst item) rule))) (session, self)
    = ((session, stored self (section_rules asts)), Ok tt).
Proof.
  induction asts as [|item asts IH]; intros session self Hf.
  - simpl. now rewrite stored_nil.
  - simpl forM_. unfold bind at 1.
    rewrite save_rules_reliable by exact Hf.
    rewrite IH by reflexivity. now rewrite stored_app.
Qed.

Lemma delete_old_keep_new (old new : list CasbinRule) :
  (forall r, In r new -> ~ In (id r) (map id old)) ->
  List.filter (fun r => negb (mem_id (id r) (map id old))) (old ++ new) = new.
Proof.
  intros Hnew. rewrite filter_app.
  assert (List.filter (fun r => negb (mem_id (id r) (map id old))) old = []) as ->.
  { assert (forall l, (forall r, In r l -> In r old) ->
              List.filter (fun r => negb (mem_id (id r) (map id old))) l = []) as H.
    { induction l as [|r l IH]; intros Hl; simpl; [reflexivity|].
      assert (mem_id (id r) (map id old) = true) as ->.
      { apply mem_id_In, in_map, Hl. now left. }
      simpl. apply IH. intros r' Hr'. apply Hl. now right. }
    apply H. auto. }
  simpl. apply forallb_filter_id. apply forallb_forall. intros r Hr.
  destruct (mem_id (id r) (map id old)) eqn:E; [|reflexivity].
  apply mem_id_In in E. now apply Hnew in E.
Qed.

(** X10: what [save_policy] does achieve on a backend that never fails (keys
    below the sequence): the call returns True and the table ends up holding
    the records of the model's rules and nothing else, in the order of the
    sections "p" then "g" and, within a section, of its policy types and
    their rules; a section the model lacks contributes nothing. *)
Lemma save_policy_replaces (m : Model) (self : Adapter) :
  faults (_engine self) = [] ->
  keys_below_sequence self ->
  exists self' : Adapter,
    save_policy m self = (self', Ok true)
    /\ table (_engine self')
       = records_of_pairs (next_id (_engine self)) (model_rules m).
Proof.
  intros Hf Hkeys.
  unfold save_policy. unfold bind at 1. unfold _session_scope.
  unfold bind at 1. unfold delete at 1. simpl fst. simpl snd.
  unfold view, session_local. simpl pending. simpl execute_all.
  unfold Query.select. simpl Query.ordered. cbv iota.
  unfold Query.satisfies. simpl Query.criteria. simpl forallb. rewrite filter_all.
  simpl forM_.
  assert (forall sec (session : Session) (self0 : Adapter),
            faults (_engine self0) = [] ->
            match dict_get sec (model m) with
            | Some asts =>
                forM_ asts (fun item =>
                  forM_ (policy (snd item)) (fun rule =>
                    call_self (_save_policy_line (fst item) rule)))
            | None => ret tt
            end (session, self0)
            = ((session,
                stored self0 (match dict_get sec (model m) with
                              | Some asts => section_rules asts
                              | None => []
                              end)), Ok tt)) as Hsec.
  { intros sec session self0 Hf0. destruct (dict_get sec (model m)).
    - now apply save_section_reliable.
    - unfold ret. now rewrite stored_nil. }
  unfold bind at 1. rewrite Hsec by exact Hf.
  unfold bind at 1. rewrite Hsec by reflexivity.
  rewrite stored_app. unfold ret at 1.
  fold (model_rules m) || (unfold model_rules; simpl flat_map; rewrite ?app_nil_r).
  unfold commit, send, stored, set_engine, next_fault. simpl.
  eexists. split; [reflexivity|].
  simpl. rewrite ?app_nil_r. apply delete_old_keep_new.
  intros r Hr Hin.
  apply in_map_iff in Hin. destruct Hin as (r0 & E & Hr0).
  unfold keys_below_sequence in Hkeys. rewrite Forall_forall in Hkeys.
  specialize (Hkeys r0 Hr0).
  match type of Hr with
  | In r (records_of_pairs ?i ?prs) => pose proof (records_of_pairs_keys prs i) as Hge
  end.
  rewrite Forall_forall in Hge. specialize (Hge r Hr). lia.
Qed.

Lemma save_policy_replaces_witness :
  exists self' : Adapter,
    save_policy policy_model reliable = (self', Ok true)
    /\ table (_engine self')
       = records_of_pairs (next_id (_engine reliable)) (model_rules policy_model).
Proof.
  apply (save_policy_replaces policy_model reliable).
  - reflexivity.
  - unfold keys_below_sequence. simpl. repeat constructor.
Defined.

(** C3 (the code departs from it): [save_policy] deletes inside the session
    of its own block, but every insert goes through [_save_policy_line],
    which opens and commits a session of its own.  When the backend fails
    the commit of the second insert, the call raises, the delete is rolled
    back and the first insert stays: the table is neither the table from
    before the call nor the rules of the model. *)
Theorem save_policy_inserts_escape_transaction :
  exists self' : Adapter,
    save_policy policy_model flaky = (self', Raise StorageError)
    /\ table (_engine self')
       = [mkCasbinRule 1 "p" (Some "alice") (Some "data1") (Some "read") None None None;
          mkCasbinRule 2 "p" (Some "bob") (Some "data2") (Some "write") None None None]
    /\ table (_engine self') <> table (_engine flaky)
    /\ table (_engine self')
       <> records_of_pairs (next_id (_engine flaky)) (model_rules policy_model).
Proof.
  eexists. split; [reflexivity|]. split; [reflexivity|].
  split; discriminate.
Qed.

End SavePolicy.

(** ** remove_policy *)

Section RemovePolicy.

(** The run of [remove_policy] when the rule fits the columns. *)
Lemma remove_policy_run (sec p : string) (rule : list string) (self : Adapter) :
  (List.length rule <= 6)%nat ->
  remove_policy sec p rule self =
  if next_fault (_engine self)
  then (set_engine self (consume_fault (_engine self)), Raise StorageError)
  else (set_engine self
          (execute (consume_fault (_engine self))
             (Delete (map id (List.filter (rule_matches p rule) (table (_engine self)))))),
        Ok (if (0 <? List.length (List.filter (rule_matches p rule) (table (_engine self))))%nat
            then true else false)).
Proof.
  intros Hlen.
  unfold remove_policy. unfold bind at 1.
  unfold _session_scope, filter_by_rule, enumerate.
  unfold bind at 1. rewrite locate_within_columns by (simpl; lia).
  unfold delete, commit, view, session_local, send. simpl.
  unfold Query.select. simpl Query.ordered. cbv iota.
  rewrite (filter_ext _ _ (satisfies_located p rule)).
  destruct (next_fault (_engine self)); reflexivity.
Qed.

Lemma rule_matches_spec (p : string) (rule : list string) (r : CasbinRule) :
  rule_matches p rule r = true <->
  ptype r = p
  /\ forall (i : nat) (v : string), nth_error rule i = Some v -> value_at i r = Some v.
Proof.
  unfold rule_matches, enumerate. rewrite andb_true_iff, String.eqb_eq.
  assert (forall k,
    forallb (fun iv => match value_at (fst iv) r with
                       | Some s => s =? snd iv
                       | None => false
                       end) (combine (seq k (List.length rule)) rule) = true
    <-> forall i v, nth_error rule i = Some v -> value_at (k + i) r = Some v) as H.
  { induction rule as [|v0 vs IH]; intros k; simpl.
    - split; [|reflexivity]. intros _ [|i] v; discriminate.
    - rewrite andb_true_iff, IH. split.
      + intros [Hv Hrest] [|i] v Hn; simpl in Hn.
        * injection Hn as ->. rewrite Nat.add_0_r.
          destruct (value_at k r); [|discriminate].
          apply String.eqb_eq in Hv. now subst.
        * replace (k + S i)%nat with (S k + i)%nat by lia. now apply Hrest.
      + intros Hall. split.
        * rewrite <- (Nat.add_0_r k). rewrite (Hall 0%nat v0 eq_refl).
          apply String.eqb_refl.
        * intros i v Hn. replace (S k + i)%nat with (k + S i)%nat by lia.
          now apply Hall. }
  rewrite (H 0%nat). simpl. tauto.
Qed.

(** X1: [remove_policy] with a rule that fits the columns (unique primary
    key, the backend accepts the commit) deletes exactly the rows that have
    the given ptype and, at every position of the rule, the rule's element;
    fields past the rule's length are not looked at.  The other rows stay in
    order, and the call returns True exactly when some row was deleted. *)
Theorem remove_policy_exact (self : Adapter) (sec p : string) (rule : list string) :
  (List.length rule <= 6)%nat ->
  primary_key self ->
  healthy 1 self ->
  exists (self' : Adapter) (b : bool),
    remove_policy sec p rule self = (self', Ok b)
    /\ table (_engine self')
       = List.filter (fun r => negb (rule_matches p rule r)) (table (_engine self))
    /\ (b = true <->
        exists r, In r (table (_engine self)) /\ rule_matches p rule r = true)
    /\ forall r : CasbinRule,
         rule_matches p rule r = true <->
         ptype r = p
         /\ forall (i : nat) (v : string),
              nth_error rule i = Some v -> value_at i r = Some v.
Proof.
  intros Hlen Hpk Hok. apply healthy_next in Hok.
  rewrite remove_policy_run by exact Hlen. rewrite Hok.
  eexists. eexists. split; [reflexivity|]. split; [|split].
  - simpl. now apply delete_matched.
  - apply some_row_matches.
  - intros r. apply rule_matches_spec.
Qed.

Lemma remove_policy_exact_witness :
  exists (self' : Adapter) (b : bool),
    remove_policy "p" "p" ["alice"] mixed = (self', Ok b)
    /\ table (_engine self')
       = List.filter (fun r => negb (rule_matches "p" ["alice"] r)) (table (_engine mixed))
    /\ (b = true <->
        exists r, In r (table (_engine mixed)) /\ rule_matches "p" ["alice"] r = true)
    /\ forall r : CasbinRule,
         rule_matches "p" ["alice"] r = true <->
         ptype r = "p"
         /\ forall (i : nat) (v : string),
              nth_error ["alice"] i = Some v -> value_at i r = Some v.
Proof.
  apply (remove_policy_exact mixed "p" "p" ["alice"]).
  - simpl. lia.
  - unfold primary_key. simpl. repeat constructor; simpl; intuition discriminate.
  - reflexivity.
Defined.

Lemma remove_policy_overflow (self : Adapter) (sec p : string) (rule : list string) :
  (6 < List.length rule)%nat ->
  remove_policy sec p rule self = (self, Raise (AttributeError "v6")).
Proof.
  intros Hlen.
  unfold remove_policy. unfold bind at 1.
  unfold _session_scope, filter_by_rule, enumerate.
  unfold bind at 1. rewrite locate_past_columns by (simpl; lia).
  destruct self; reflexivity.
Qed.

(** X2: a rule longer than the six columns cannot be turned into a query:
    [remove_policy] raises AttributeError for the name "v6" and the adapter
    and its table are as before. *)
Theorem remove_policy_past_columns (self : Adapter) (sec p : string) (rule : list string) :
  (6 < List.length rule)%nat ->
  remove_policy sec p rule self = (self, Raise (AttributeError "v6")).
Proof. apply remove_policy_overflow. Qed.

Lemma remove_policy_past_columns_witness :
  remove_policy "p" "p" ["a"; "b"; "c"; "d"; "e"; "f"; "g"] mixed
  = (mixed, Raise (AttributeError "v6")).
Proof.
  apply (remove_policy_past_columns mixed "p" "p" ["a"; "b"; "c"; "d"; "e"; "f"; "g"]).
  simpl. lia.
Defined.

End RemovePolicy.

(** ** add_policy composed with remove_policy and update_policy *)

Section AddThen.

Lemma value_at_record_of (i : Z) (p : string) (rule : list string) (j : nat) :
  value_at j (record_of i p rule) = if (j <? 6)%nat then nth_error rule j else None.
Proof. destruct j as [|[|[|[|[|[|j]]]]]]; reflexivity. Qed.

Lemma rule_matches_record (i : Z) (p : string) (rule : list string) :
  (List.length rule <= 6)%nat -> rule_matches p rule (record_of i p rule) = true.
Proof.
  intros Hlen. apply rule_matches_spec. split; [reflexivity|].
  intros j v Hj. rewrite value_at_record_of.
  assert (j < List.length rule)%nat by (apply nth_error_Some; congruence).
  destruct (Nat.ltb_spec j 6); [exact Hj | lia].
Qed.

Lemma no_match_filter (p : string) (rule : list string) (rows : list CasbinRule) :
  count_matching p rule rows = 0%nat -> List.filter (rule_matches p rule) rows = [].
Proof. unfold count_matching. apply length_zero_iff_nil. Qed.

Lemma matched_after_add (i : Z) (p : string) (rule : list string) (rows : list CasbinRule) :
  (List.length rule <= 6)%nat ->
  count_matching p rule rows = 0%nat ->
  List.filter (rule_matches p rule) (rows ++ [record_of i p rule]) = [record_of i p rule].
Proof.
  intros Hlen Hnone. rewrite filter_app, (no_match_filter _ _ _ Hnone). simpl.
  now rewrite rule_matches_record.
Qed.

Lemma none_left {A} (f : A -> bool) (l : list A) :
  List.filter f (List.filter (fun x => negb (f x)) l) = [].
Proof.
  induction l as [|x l IH]; simpl; [reflexivity|].
  destruct (f x) eqn:E; simpl; [exact IH|]. now rewrite E.
Qed.

Lemma keep_below (n : Z) (rows : list CasbinRule) :
  Forall (fun r => (id r < n)%Z) rows ->
  List.filter (fun r => negb (mem_id (id r) [n])) rows = rows.
Proof.
  intros H. apply forallb_filter_id. apply forallb_forall. intros r Hr.
  rewrite Forall_forall in H. specialize (H r Hr).
  unfold mem_id. simpl. destruct (Z.eqb_spec (id r) n); [lia | reflexivity].
Qed.

Lemma update_below (n : Z) (line : CasbinRule) (rows : list CasbinRule) :
  Forall (fun r => (id r < n)%Z) rows -> id line = n ->
  map (fun r => if (id r =? id line)%Z then line else r) rows = rows.
Proof.
  intros H E. rewrite <- (map_id rows) at 2. apply map_ext_in. intros r Hr.
  rewrite Forall_forall in H. specialize (H r Hr).
  destruct (Z.eqb_spec (id r) (id line)); [lia | reflexivity].
Qed.

(** X3: for a rule of at most six elements that no stored row matches (keys
    below the sequence, the backend accepts both commits), [add_policy]
    followed by [remove_policy] with the same tuple returns True and the
    table is back to what it was. *)
Theorem add_policy_remove_policy_round_trip (self : Adapter) (sec p : string)
    (rule : list string) :
  (List.length rule <= 6)%nat ->
  count_matching p rule (table (_engine self)) = 0%nat ->
  keys_below_sequence self ->
  healthy 2 self ->
  exists self1 self2 : Adapter,
    add_policy sec p rule self = (self1, Ok tt)
    /\ remove_policy sec p rule self1 = (self2, Ok true)
    /\ table (_engine self2) = table (_engine self).
Proof.
  intros Hlen Hnone Hkeys Hok. apply healthy_2 in Hok. destruct Hok as [Hok1 Hok2].
  unfold add_policy. rewrite _save_policy_line_run, Hok1.
  eexists. eexists. split; [reflexivity|].
  rewrite remove_policy_run by exact Hlen.
  unfold next_fault. simpl. rewrite Hok2.
  rewrite (matched_after_add _ _ _ _ Hlen Hnone). simpl.
  split; [reflexivity|].
  rewrite filter_app. simpl. rewrite Z.eqb_refl. simpl.
  rewrite app_nil_r. now apply (keep_below (next_id (_engine self))).
Qed.

Lemma add_policy_remove_policy_round_trip_witness :
  exists self1 self2 : Adapter,
    add_policy "p" "p" ["bob"; "data2"; "write"] mixed = (self1, Ok tt)
    /\ remove_policy "p" "p" ["bob"; "data2"; "write"] self1 = (self2, Ok true)
    /\ table (_engine self2) = table (_engine mixed).
Proof.
  apply (add_policy_remove_policy_round_trip mixed "p" "p" ["bob"; "data2"; "write"]).
  - simpl. lia.
  - reflexivity.
  - unfold keys_below_sequence. simpl. repeat constructor.
  - reflexivity.
Defined.

(** X4: [remove_policy] called twice with the same rule (at most six
    elements, unique primary key, the backend accepts both commits): the
    second call returns False and leaves the table as the first call left
    it. *)
Theorem remove_policy_twice (self : Adapter) (sec p : string) (rule : list string) :
  (List.length rule <= 6)%nat ->
  primary_key self ->
  healthy 2 self ->
  exists (b : bool) (self1 self2 : Adapter),
    remove_policy sec p rule self = (self1, Ok b)
    /\ remove_policy sec p rule self1 = (self2, Ok false)
    /\ table (_engine self2) = table (_engine self1).
Proof.
  intros Hlen Hpk Hok. apply healthy_2 in Hok. destruct Hok as [Hok1 Hok2].
  rewrite remove_policy_run by exact Hlen. rewrite Hok1.
  eexists. eexists. eexists. split; [reflexivity|].
  rewrite remove_policy_run by exact Hlen.
  unfold next_fault. simpl. rewrite Hok2.
  unfold primary_key in Hpk. rewrite delete_matched by exact Hpk.
  rewrite none_left.
  simpl. split; [reflexivity|].
  apply forallb_filter_id. apply forallb_forall. reflexivity.
Qed.

Lemma remove_policy_twice_witness :
  exists (b : bool) (self1 self2 : Adapter),
    remove_policy "p" "p" ["alice"; "data1"; "read"] mixed = (self1, Ok b)
    /\ remove_policy "p" "p" ["alice"; "data1"; "read"] self1 = (self2, Ok false)
    /\ table (_engine self2) = table (_engine self1).
Proof.
  apply (remove_policy_twice mixed "p" "p" ["alice"; "data1"; "read"]).
  - simpl. lia.
  - unfold primary_key. simpl. repeat constructor; simpl; intuition discriminate.
  - reflexivity.
Defined.

(** X5: [add_policy] does not look for an equal rule.  After the same rule
    (at most six elements) was added twice, [update_policy] on that rule
    finds two records and raises MultipleResultsFound, whatever the new rule,
    and changes nothing. *)
Theorem add_policy_twice_blocks_update (self : Adapter) (sec p : string)
    (rule new_rule : list string) :
  (List.length rule <= 6)%nat ->
  healthy 2 self ->
  exists self1 self2 : Adapter,
    add_policy sec p rule self = (self1, Ok tt)
    /\ add_policy sec p rule self1 = (self2, Ok tt)
    /\ update_policy sec p rule new_rule self2 = (self2, Raise MultipleResultsFound).
Proof.
  intros Hlen Hok. apply healthy_2 in Hok. destruct Hok as [Hok1 Hok2].
  unfold add_policy. rewrite _save_policy_line_run, Hok1.
  eexists. eexists. split; [reflexivity|].
  rewrite _save_policy_line_run. unfold next_fault at 1. simpl. rewrite Hok2.
  split; [reflexivity|].
  rewrite update_policy_run by exact Hlen. simpl.
  rewrite !filter_app. simpl. rewrite !rule_matches_record by exact Hlen. simpl.
  destruct (List.filter (rule_matches p rule) (table (_engine self))) as [|a [|b l]];
    reflexivity.
Qed.

Lemma add_policy_twice_blocks_update_witness :
  exists self1 self2 : Adapter,
    add_policy "p" "p" ["alice"; "data1"; "read"] fresh = (self1, Ok tt)
    /\ add_policy "p" "p" ["alice"; "data1"; "read"] self1 = (self2, Ok tt)
    /\ update_policy "p" "p" ["alice"; "data1"; "read"] ["alice"; "data1"; "write"] self2
       = (self2, Raise MultipleResultsFound).
Proof.
  apply (add_policy_twice_blocks_update fresh "p" "p"
           ["alice"; "data1"; "read"] ["alice"; "data1"; "write"]).
  - simpl. lia.
  - reflexivity.
Defined.

Lemma overwrite_record (i : Z) (p : string) (old_rule new_rule : list string) :
  (List.length old_rule <= 6)%nat ->
  overwrite old_rule new_rule (record_of i p old_rule) = record_of i p new_rule.
Proof.
  intros Hlen. apply row_ext.
  - now rewrite overwrite_id.
  - now rewrite overwrite_ptype.
  - intros j Hj. rewrite overwrite_value_at by exact Hj.
    rewrite !value_at_record_of.
    destruct (Nat.ltb_spec j 6); [|lia].
    destruct (Nat.ltb_spec j (List.length new_rule)); [reflexivity|].
    assert (nth_error new_rule j = None) as -> by (apply nth_error_None; lia).
    destruct (Nat.ltb_spec j (Nat.max (List.length old_rule) (List.length new_rule)));
      [reflexivity|].
    apply nth_error_None. lia.
Qed.

(** X6: adding a rule (at most six elements, matched by no stored row) and
    then updating it to a new rule leaves the table that adding the new rule
    directly would have left: same rows, same keys. *)
Theorem add_policy_update_policy_is_add_policy (self : Adapter) (sec p : string)
    (old_rule new_rule : list string) :
  (List.length old_rule <= 6)%nat ->
  count_matching p old_rule (table (_engine self)) = 0%nat ->
  keys_below_sequence self ->
  healthy 2 self ->
  exists self1 self2 self3 : Adapter,
    add_policy sec p old_rule self = (self1, Ok tt)
    /\ update_policy sec p old_rule new_rule self1 = (self2, Ok tt)
    /\ add_policy sec p new_rule self = (self3, Ok tt)
    /\ table (_engine self2) = table (_engine self3).
Proof.
  intros Hlen Hnone Hkeys Hok. apply healthy_2 in Hok. destruct Hok as [Hok1 Hok2].
  unfold add_policy. rewrite !_save_policy_line_run, Hok1.
  eexists. eexists. eexists. split; [reflexivity|].
  rewrite update_policy_run by exact Hlen.
  unfold next_fault. simpl. rewrite Hok2.
  rewrite (matched_after_add _ _ _ _ Hlen Hnone).
  split; [reflexivity|]. split; [reflexivity|]. simpl.
  rewrite map_app. simpl. rewrite overwrite_record by exact Hlen. simpl.
  rewrite Z.eqb_refl. f_equal.
  apply (update_below (next_id (_engine self))
           (record_of (next_id (_engine self)) p new_rule)); [exact Hkeys | reflexivity].
Qed.

Lemma add_policy_update_policy_is_add_policy_witness :
  exists self1 self2 self3 : Adapter,
    add_policy "p" "p" ["bob"; "data2"; "write"] mixed = (self1, Ok tt)
    /\ update_policy "p" "p" ["bob"; "data2"; "write"] ["bob"; "data2"] self1 = (self2, Ok tt)
    /\ add_policy "p" "p" ["bob"; "data2"] mixed = (self3, Ok tt)
    /\ table (_engine self2) = table (_engine self3).
Proof.
  apply (add_policy_update_policy_is_add_policy mixed "p" "p"
           ["bob"; "data2"; "write"] ["bob"; "data2"]).
  - simpl. lia.
  - reflexivity.
  - unfold keys_below_sequence. simpl. repeat constructor.
  - reflexivity.
Defined.

End AddThen.

(** ** Rollback *)

Section Rollback.





End Rollback.

(** ** update_policies *)

Section UpdatePolicies.

Lemma forM__pointwise {St A} (f g : A -> M St unit) (xs : list A) :
  (forall x s, f x s = g x s) -> forall s, forM_ xs f s = forM_ xs g s.
Proof.
  intros H. induction xs as [|x xs IH]; intros s; simpl; [reflexivity|].
  unfold bind. rewrite H. destruct (g x s) as [s' [u|e]]; [apply IH | reflexivity].
Qed.

Lemma forM__map {St A B} (h : A -> B) (f : B -> M St unit) (xs : list A) :
  forall s, forM_ (map h xs) f s = forM_ xs (fun x => f (h x)) s.
Proof.
  induction xs as [|x xs IH]; intros s; simpl; [reflexivity|].
  unfold bind. destruct (f (h x) s) as [s' [u|e]]; [apply IH | reflexivity].
Qed.

(** X8: [update_policies] applies [update_policy] to the pairs of old and
    new rules in order, each in its own transaction, and stops at the first
    call that raises, so the updates made before it stay.  With no old rule
    it does nothing, whatever the new rules; when the new rules run out
    before the old ones it raises IndexError at that pair. *)
Theorem update_policies_pairwise (sec p : string) :
  (forall (new_rules : list (list string)) (self : Adapter),
      update_policies sec p [] new_rules self = (self, Ok tt))
  /\ (forall (old_rule : list string) (old_rules : list (list string)) (self : Adapter),
        update_policies sec p (old_rule :: old_rules) [] self = (self, Raise IndexError))
  /\ (forall (old_rule new_rule : list string) (old_rules new_rules : list (list string))
             (self : Adapter),
        update_policies sec p (old_rule :: old_rules) (new_rule :: new_rules) self
        = (update_policy sec p old_rule new_rule ;;
           update_policies sec p old_rules new_rules) self).
Proof.
  split; [reflexivity|]. split; [reflexivity|].
  intros old_rule new_rule old_rules new_rules self.
  unfold update_policies. simpl List.length. simpl seq. simpl forM_.
  unfold bind. destruct (update_policy sec p old_rule new_rule self) as [s' [u|e]];
    [|reflexivity].
  rewrite <- seq_shift, forM__map. apply forM__pointwise.
  intros i s. reflexivity.
Qed.

Example update_policies_stops_midway :
  update_policies "p" "p" [["carol"]; ["zed"]; ["alice"; "data1"]]
                  [["carla"]; ["zoe"]; ["alice"; "data9"]] mixed
  = (mkAdapter
       (mkStore [mkCasbinRule 1 "p" (Some "alice") (Some "data1") (Some "read") None None None;
                 mkCasbinRule 2 "p" (Some "alice") (Some "data2") (Some "read") None None None;
                 mkCasbinRule 3 "p" (Some "carla") (Some "data1") (Some "read") None None None;
                 mkCasbinRule 4 "g" (Some "alice") (Some "data1") None None None None]
                5 [])
       false,
     Raise NoResultFound).
Proof. reflexivity. Qed.

End UpdatePolicies.

(** ** filter_query and load_filtered_policy *)

Section FilteredLoad.

Variable load_policy_line : string -> Model -> Model.







End FilteredLoad.


Example load_filtered_policy_lines :
  snd (load_filtered_policy trace_line (mkModel [])
         (Filter.mk ["p"] [] ["data1"] [] [] [] []) mixed)
  = Ok (mkModel [("p, carol, data1, read", []); ("p, alice, data1, read", [])]).
Proof. reflexivity. Qed.

(** ** remove_policies next to remove_policy *)

Section RemoveBatch.

(** The run of [remove_policies] on a batch whose shortest rule fits the
    columns. *)
Lemma remove_policies_run (sec p : string) (rules : list (list string)) (self : Adapter) :
  rules <> [] ->
  (shortest rules <= 6)%nat ->
  remove_policies sec p rules self =
  if next_fault (_engine self)
  then (set_engine self (consume_fault (_engine self)), Raise StorageError)
  else (set_engine self
          (execute (consume_fault (_engine self))
             (Delete (map id (List.filter (relaxed_match p rules) (table (_engine self)))))),
        Ok tt).
Proof.
  intros Hne Hlen.
  destruct rules as [|l rest] eqn:Hrules; [congruence|]. rewrite <- Hrules in *.
  assert (remove_policies sec p rules self
          = _session_scope (
              let query := Query.query in
              let query := Query.filter query (Query.ptype_eq p) in
              let rules := zip_star rules in
              query <- foldM (fun query irule =>
                         clauses <- mapM (fun v =>
                                      col <- getattr_ (format_v (Z.of_nat (fst irule))) ;;
                                      ret (Query.eq_ col v))
                                    (snd irule) ;;
                         ret (Query.filter query (Query.or_ clauses)))
                       (enumerate rules) query ;;
              _ <- delete query ;;
              ret tt) self) as -> by (rewrite Hrules; reflexivity).
  cbv zeta. unfold _session_scope, enumerate. unfold bind at 1.
  destruct (transposed_criteria (St := Scope) (zip_star rules) 0
              (Query.filter Query.query (Query.ptype_eq p)) (session_local, self))
    as (q' & Hrun & Hord & Hsat).
  { rewrite zip_star_length by exact Hne. simpl. lia. }
  rewrite Hrun. unfold bind, delete, ret, commit, view, Query.select. simpl.
  rewrite Hord.
  assert (forall r, Query.satisfies q' r = relaxed_match p rules r) as Hsat'.
  { intros r. rewrite Hsat, satisfies_filter.
    rewrite <- columns_match_zip_star by exact Hne. reflexivity. }
  rewrite (filter_ext _ _ Hsat').
  destruct (next_fault (_engine self)); reflexivity.
Qed.

Lemma rule_matches_relaxed (p : string) (rules : list (list string)) (rule : list string)
    (r : CasbinRule) :
  In rule rules -> rule_matches p rule r = true -> relaxed_match p rules r = true.
Proof.
  intros Hin Hm. apply rule_matches_spec in Hm. destruct Hm as [Hp Hv].
  apply relaxed_match_spec. split; [exact Hp|].
  intros i Hi.
  assert (shortest rules <= List.length rule)%nat as Hle.
  { clear - Hin. induction rules as [|l rest IH]; [contradiction|].
    destruct Hin as [->|Hin].
    - apply shortest_le_head.
    - specialize (IH Hin). simpl. destruct rest; [contradiction | lia]. }
  destruct (nth_error rule i) as [v|] eqn:E.
  - exists rule, v. auto.
  - apply nth_error_None in E. lia.
Qed.

(** X11: after [remove_policies] (shortest rule within the six columns,
    unique primary key, the backend accepts the commit) no stored row
    matches any rule of the batch: whatever [remove_policy] would delete for
    one of the rules is deleted. *)
Theorem remove_policies_covers_rules (self : Adapter) (sec p : string)
    (rules : list (list string)) (rule : list string) :
  In rule rules ->
  (shortest rules <= 6)%nat ->
  primary_key self ->
  healthy 1 self ->
  exists self' : Adapter,
    remove_policies sec p rules self = (self', Ok tt)
    /\ count_matching p rule (table (_engine self')) = 0%nat.
Proof.
  intros Hin Hlen Hpk Hok. apply healthy_next in Hok.
  assert (rules <> []) as Hne by (intros ->; contradiction).
  rewrite remove_policies_run by assumption. rewrite Hok.
  eexists. split; [reflexivity|].
  simpl. unfold primary_key in Hpk. rewrite delete_matched by exact Hpk.
  unfold count_matching. apply length_zero_iff_nil.
  induction (table (_engine self)) as [|r rows IH]; simpl; [reflexivity|].
  - destruct (relaxed_match p rules r) eqn:E; simpl.
    + apply IH. now inversion Hpk.
    + destruct (rule_matches p rule r) eqn:Em.
      * rewrite (rule_matches_relaxed p rules rule r Hin Em) in E. discriminate.
      * apply IH. now inversion Hpk.
Qed.

Lemma remove_policies_covers_rules_witness :
  exists self' : Adapter,
    remove_policies "p" "p" [["alice"; "data1"]; ["bob"; "data2"]] mixed = (self', Ok tt)
    /\ count_matching "p" ["alice"; "data1"] (table (_engine self')) = 0%nat.
Proof.
  apply (remove_policies_covers_rules mixed "p" "p"
           [["alice"; "data1"]; ["bob"; "data2"]] ["alice"; "data1"]).
  - simpl. auto.
  - simpl. lia.
  - unfold primary_key. simpl. repeat constructor; simpl; intuition discriminate.
  - reflexivity.
Defined.

Lemma relaxed_match_single (p : string) (rule : list string) (r : CasbinRule) :
  relaxed_match p [rule] r = rule_matches p rule r.
Proof.
  apply eq_true_iff_eq. rewrite relaxed_match_spec, rule_matches_spec. simpl.
  split; intros [Hp H]; (split; [exact Hp|]).
  - intros i v Hi.
    assert (i < List.length rule)%nat as Hlt by (apply nth_error_Some; congruence).
    destruct (H i Hlt) as (rule' & v' & [<-|[]] & Hv & Hr). congruence.
  - intros i Hi. destruct (nth_error rule i) as [v|] eqn:E.
    + exists rule, v. auto.
    + apply nth_error_None in E. lia.
Qed.

(** X12: with a batch of one rule the relaxed match is the exact one:
    [remove_policies] with the batch [[rule]] leaves the adapter and its
    table exactly as [remove_policy] with [rule] leaves them, whatever the
    rule and whether or not the commit fails. *)
Theorem remove_policies_single_rule (self : Adapter) (sec p : string) (rule : list string) :
  fst (remove_policies sec p [rule] self) = fst (remove_policy sec p rule self).
Proof.
  destruct (Nat.leb_spec (List.length rule) 6) as [Hlen|Hlen].
  - rewrite remove_policies_run by (simpl; (discriminate || lia)).
    rewrite remove_policy_run by exact Hlen.
    rewrite (filter_ext _ _ (relaxed_match_single p rule)).
    destruct (next_fault (_engine self)); reflexivity.
  - rewrite remove_policies_past_columns by (simpl; (discriminate || lia)).
    rewrite remove_policy_overflow by exact Hlen. reflexivity.
Qed.

End RemoveBatch.

(** ** remove_filtered_policy next to remove_policy *)

Section RemoveFilteredFromZero.

(** The run of [remove_filtered_policy] on valid bounds. *)
Lemma remove_filtered_policy_run (sec p : string) (field_index : Z)
    (field_values : list string) (self : Adapter) :
  (0 <= field_index <= 5)%Z ->
  (1 <= field_index + Z.of_nat (List.length field_values) <= 6)%Z ->
  remove_filtered_policy sec p field_index field_values self =
  if next_fault (_engine self)
  then (set_engine self (consume_fault (_engine self)), Raise StorageError)
  else (set_engine self
          (execute (consume_fault (_engine self))
             (Delete (map id (List.filter (filtered_match p field_index field_values)
                                          (table (_engine self)))))),
        Ok (if (0 <? List.length (List.filter (filtered_match p field_index field_values)
                                              (table (_engine self))))%nat
            then true else false)).
Proof.
  intros Hfi Hsum.
  unfold remove_filtered_policy, _session_scope. unfold bind at 1.
  destruct (Z.leb_spec 0 field_index); [|lia].
  destruct (Z.leb_spec field_index 5); [|lia].
  destruct (Z.leb_spec 1 (field_index + Z.of_nat (List.length field_values))); [|lia].
  destruct (Z.leb_spec (field_index + Z.of_nat (List.length field_values)) 6); [|lia].
  cbn [negb andb].
  destruct (filtered_criteria (St := Scope) field_index field_values 0
              (Query.filter Query.query (Query.ptype_eq p)) (session_local, self))
    as (q' & Hrun & Hord & Hsat); [lia | simpl; lia |].
  unfold enumerate. rewrite (bind_ok _ _ _ _ _ Hrun).
  unfold bind, delete, ret, commit, view, Query.select. simpl.
  rewrite Hord.
  assert (forall r, Query.satisfies q' r = filtered_match p field_index field_values r)
    as Hsat'.
  { intros r. rewrite Hsat, satisfies_filter. reflexivity. }
  rewrite (filter_ext _ _ Hsat').
  destruct (next_fault (_engine self)); reflexivity.
Qed.

Lemma filtered_match_from_zero (p : string) (rule : list string) (r : CasbinRule) :
  Forall (fun v => v <> "") rule ->
  filtered_match p 0 rule r = rule_matches p rule r.
Proof.
  intros Hne. apply eq_true_iff_eq. rewrite filtered_match_spec, rule_matches_spec.
  rewrite Forall_forall in Hne.
  split; intros [Hp H]; (split; [exact Hp|]).
  - intros i v Hi. specialize (H i v Hi (Hne v (nth_error_In _ _ Hi))).
    now rewrite Z.add_0_l, Nat2Z.id in H.
  - intros i v Hi _. rewrite Z.add_0_l, Nat2Z.id. now apply H.
Qed.

(** X13: for a rule of one to six elements, none of them the empty string,
    [remove_filtered_policy] from field index 0 with the rule's elements as
    field values does exactly what [remove_policy] does with the rule: same
    adapter afterwards, same result. *)
Theorem remove_filtered_policy_from_zero (self : Adapter) (sec p : string)
    (rule : list string) :
  (1 <= List.length rule <= 6)%nat ->
  Forall (fun v => v <> "") rule ->
  remove_filtered_policy sec p 0 rule self = remove_policy sec p rule self.
Proof.
  intros Hlen Hne.
  rewrite remove_filtered_policy_run by lia.
  rewrite remove_policy_run by lia.
  rewrite (filter_ext _ _ (fun r => filtered_match_from_zero p rule r Hne)).
  reflexivity.
Qed.

Lemma remove_filtered_policy_from_zero_witness :
  remove_filtered_policy "p" "p" 0 ["alice"; "data1"] mixed
  = remove_policy "p" "p" ["alice"; "data1"] mixed.
Proof.
  apply (remove_filtered_policy_from_zero mixed "p" "p" ["alice"; "data1"]).
  - simpl. lia.
  - repeat constructor; discriminate.
Defined.

(** With no element at all the two part ways: [remove_filtered_policy]
    refuses the bounds and deletes nothing, [remove_policy] deletes every row
    of the ptype. *)
Example empty_rule_differs :
  remove_filtered_policy "p" "p" 0 [] mixed = (mixed, Ok false)
  /\ table (_engine (fst (remove_policy "p" "p" [] mixed)))
     = [mkCasbinRule 4 "g" (Some "alice") (Some "data1") None None None None].
Proof. split; reflexivity. Qed.

End RemoveFilteredFromZero.

(** ** update_policy with the rule itself; lines of rows with a gap *)

Section Gaps.

(** X14: [update_policy] with [new_rule] equal to [old_rule], when exactly
    one record matches (unique primary key, the backend accepts the commit),
    returns normally and leaves every row of the table as it is. *)
Theorem update_policy_same_rule (self : Adapter) (sec p : string) (rule : list string) :
  primary_key self ->
  healthy 1 self ->
  count_matching p rule (table (_engine self)) = 1%nat ->
  exists self' : Adapter,
    update_policy sec p rule rule self = (self', Ok tt)
    /\ table (_engine self') = table (_engine self).
Proof.
  intros Hpk Hok Hcount. apply healthy_next in Hok.
  assert (List.length rule <= 6)%nat as Hlen.
  { destruct (Nat.leb_spec (List.length rule) 6) as [|Hgt]; [assumption|].
    rewrite count_matching_past_columns in Hcount by exact Hgt. discriminate. }
  rewrite update_policy_run by exact Hlen. rewrite Hok.
  unfold count_matching in Hcount.
  destruct (List.filter (rule_matches p rule) (table (_engine self)))
    as [|r0 [|r1 rs]] eqn:Hsel; simpl in Hcount; try discriminate.
  assert (In r0 (table (_engine self)) /\ rule_matches p rule r0 = true) as [Hin0 Hm0].
  { apply filter_In. rewrite Hsel. now left. }
  assert (overwrite rule rule r0 = r0) as ->.
  { apply rule_matches_spec in Hm0. destruct Hm0 as [_ Hv].
    apply row_ext; [apply overwrite_id | apply overwrite_ptype |].
    intros j Hj. rewrite overwrite_value_at by exact Hj. rewrite Nat.max_id.
    destruct (Nat.ltb_spec j (List.length rule)) as [Hlt|]; [|reflexivity].
    destruct (nth_error rule j) as [v|] eqn:E.
    - symmetry. now apply Hv.
    - apply nth_error_None in E. lia. }
  eexists. split; [reflexivity|]. simpl.
  rewrite <- (map_id (table (_engine self))) at 2. apply map_ext_in.
  intros r Hr. destruct (Z.eqb_spec (id r) (id r0)) as [E|]; [|reflexivity].
  symmetry. now apply (unique_by_id (table (_engine self))).
Qed.

Lemma update_policy_same_rule_witness :
  exists self' : Adapter,
    update_policy "p" "p" ["carol"; "data1"] ["carol"; "data1"] mixed = (self', Ok tt)
    /\ table (_engine self') = table (_engine mixed).
Proof.
  apply (update_policy_same_rule mixed "p" "p" ["carol"; "data1"]).
  - unfold primary_key. simpl. repeat constructor; simpl; intuition discriminate.
  - reflexivity.
  - reflexivity.
Defined.

Lemma str_of_prefix (r : CasbinRule) (values : list string) :
  (List.length values <= 6)%nat ->
  (forall j : nat, (j < List.length values)%nat -> value_at j r = nth_error values j) ->
  ((List.length values < 6)%nat -> value_at (List.length values) r = None) ->
  __str__ r = String.concat ", " (ptype r :: values).
Proof.
  intros Hlen Hset Hgap. destruct r as [i p a0 a1 a2 a3 a4 a5].
  pose proof (Hset 0%nat) as H0. pose proof (Hset 1%nat) as H1.
  pose proof (Hset 2%nat) as H2. pose proof (Hset 3%nat) as H3.
  pose proof (Hset 4%nat) as H4. pose proof (Hset 5%nat) as H5. clear Hset.
  destruct values as [|x0 [|x1 [|x2 [|x3 [|x4 [|x5 [|x6 rest]]]]]]];
    simpl in *; try lia;
    repeat match goal with
           | H : (?a < ?b)%nat -> _ |- _ =>
               first [specialize (H ltac:(lia)) | clear H]
           end;
    subst; reflexivity.
Qed.

(** X15: the line of a row is its ptype followed by its values up to the
    first unset one, joined by a comma and a space; whatever the row holds
    after that first gap is not in the line. *)
Theorem str_stops_at_first_gap (r : CasbinRule) (values : list string) :
  (List.length values <= 6)%nat ->
  (forall j : nat, (j < List.length values)%nat -> value_at j r = nth_error values j) ->
  ((List.length values < 6)%nat -> value_at (List.length values) r = None) ->
  __str__ r = String.concat ", " (ptype r :: values).
Proof. apply str_of_prefix. Qed.

Lemma str_stops_at_first_gap_witness :
  __str__ (mkCasbinRule 1 "p" (Some "alice") None (Some "read") None None None)
  = String.concat ", "
      (ptype (mkCasbinRule 1 "p" (Some "alice") None (Some "read") None None None)
       :: ["alice"]).
Proof.
  apply (str_stops_at_first_gap
           (mkCasbinRule 1 "p" (Some "alice") None (Some "read") None None None) ["alice"]).
  - simpl. lia.
  - intros [|j] Hj; [reflexivity | simpl in Hj; lia].
  - reflexivity.
Defined.

End Gaps.

(** ** Shrinking a rule; empty rules *)

Section SharpEdges.

(** X16: [update_policy] with a [new_rule] shorter than [old_rule], when
    exactly one record matches (unique primary key, the backend accepts the
    commit): the record's line becomes the ptype followed by [new_rule],
    while the values the record held past the length of [old_rule] stay in
    the row, behind the gap, where the line does not show them. *)
Theorem update_policy_shrink_hides_tail (self : Adapter) (sec p : string)
    (old_rule new_rule : list string) (r : CasbinRule) :
  primary_key self ->
  healthy 1 self ->
  count_matching p old_rule (table (_engine self)) = 1%nat ->
  (List.length new_rule < List.length old_rule)%nat ->
  In r (table (_engine self)) ->
  rule_matches p old_rule r = true ->
  exists (self' : Adapter) (r' : CasbinRule),
    update_policy sec p old_rule new_rule self = (self', Ok tt)
    /\ In r' (table (_engine self'))
    /\ id r' = id r
    /\ __str__ r' = String.concat ", " (p :: new_rule)
    /\ forall j : nat, (List.length old_rule <= j)%nat -> value_at j r' = value_at j r.
Proof.
  intros Hpk Hok Hcount Hshort Hin Hm. apply healthy_next in Hok.
  assert (List.length old_rule <= 6)%nat as Hlen.
  { destruct (Nat.leb_spec (List.length old_rule) 6) as [|Hgt]; [assumption|].
    rewrite count_matching_past_columns in Hcount by exact Hgt. discriminate. }
  rewrite update_policy_run by exact Hlen. rewrite Hok.
  unfold count_matching in Hcount.
  destruct (List.filter (rule_matches p old_rule) (table (_engine self)))
    as [|r0 [|r1 rs]] eqn:Hsel; simpl in Hcount; try discriminate.
  assert (r = r0) as <-.
  { assert (In r (List.filter (rule_matches p old_rule) (table (_engine self)))) as H
      by (apply filter_In; auto).
    rewrite Hsel in H. destruct H as [<-|[]]. reflexivity. }
  exists (set_engine self
            (execute (consume_fault (_engine self))
                     (Update (overwrite old_rule new_rule r)))),
         (overwrite old_rule new_rule r).
  split; [reflexivity|]. split; [|split; [|split]].
  - simpl. apply in_map_iff. exists r. split; [|exact Hin].
    now rewrite overwrite_id, Z.eqb_refl.
  - apply overwrite_id.
  - apply rule_matches_spec in Hm. destruct Hm as [Hp _].
    rewrite <- Hp, <- (overwrite_ptype old_rule new_rule r).
    apply str_of_prefix.
    + lia.
    + intros j Hj. rewrite overwrite_value_at by lia.
      destruct (Nat.ltb_spec j (List.length new_rule)); [reflexivity | lia].
    + intros Hj. rewrite overwrite_value_at by lia.
      destruct (Nat.ltb_spec (List.length new_rule) (List.length new_rule)); [lia|].
      destruct (Nat.ltb_spec (List.length new_rule)
                  (Nat.max (List.length old_rule) (List.length new_rule)));
        [reflexivity | lia].
  - intros j Hj. destruct (Nat.ltb_spec j 6) as [Hj6|Hj6].
    + rewrite overwrite_value_at by exact Hj6.
      destruct (Nat.ltb_spec j (List.length new_rule)); [lia|].
      destruct (Nat.ltb_spec j (Nat.max (List.length old_rule) (List.length new_rule)));
        [lia | reflexivity].
    + destruct j as [|[|[|[|[|[|j]]]]]]; try lia. reflexivity.
Qed.

Lemma update_policy_shrink_hides_tail_witness :
  exists (self' : Adapter) (r' : CasbinRule),
    update_policy "p" "p" ["carol"; "data1"] ["carol"] mixed = (self', Ok tt)
    /\ In r' (table (_engine self'))
    /\ id r' = id (mkCasbinRule 3 "p" (Some "carol") (Some "data1") (Some "read")
                                None None None)
    /\ __str__ r' = String.concat ", " ("p" :: ["carol"])
    /\ forall j : nat,
         (List.length ["carol"; "data1"] <= j)%nat ->
         value_at j r'
         = value_at j (mkCasbinRule 3 "p" (Some "carol") (Some "data1") (Some "read")
                                    None None None).
Proof.
  apply (update_policy_shrink_hides_tail mixed "p" "p" ["carol"; "data1"] ["carol"]
           (mkCasbinRule 3 "p" (Some "carol") (Some "data1") (Some "read") None None None)).
  - unfold primary_key. simpl. repeat constructor; simpl; intuition discriminate.
  - reflexivity.
  - reflexivity.
  - simpl. lia.
  - simpl. auto.
  - reflexivity.
Defined.

Lemma shortest_with_empty {A} (ls : list (list A)) : In [] ls -> shortest ls = 0%nat.
Proof.
  induction ls as [|l rest IH]; [contradiction|].
  intros [->|Hin].
  - simpl. destruct rest; reflexivity.
  - specialize (IH Hin). simpl. destruct rest; [contradiction|]. rewrite IH. lia.
Qed.

(** X17: an empty rule constrains no position.  [remove_policy] with the
    empty rule, and [remove_policies] with a batch that holds an empty rule,
    delete every row of the given ptype, whatever the other rules of the
    batch say (unique primary key, the backend accepts the commit). *)
Theorem empty_rule_removes_ptype (self : Adapter) (sec p : string)
    (rules : list (list string)) :
  primary_key self ->
  healthy 1 self ->
  (exists (self' : Adapter) (b : bool),
      remove_policy sec p [] self = (self', Ok b)
      /\ table (_engine self')
         = List.filter (fun r => negb (ptype r =? p)) (table (_engine self)))
  /\ (In [] rules ->
      exists self' : Adapter,
        remove_policies sec p rules self = (self', Ok tt)
        /\ table (_engine self')
           = List.filter (fun r => negb (ptype r =? p)) (table (_engine self))).
Proof.
  intros Hpk Hok. apply healthy_next in Hok. unfold primary_key in Hpk. split.
  - rewrite remove_policy_run by (simpl; lia). rewrite Hok.
    assert (forall r, rule_matches p [] r = (ptype r =? p)) as E
      by (intros r; unfold rule_matches; simpl; apply andb_true_r).
    eexists. eexists. split; [reflexivity|]. simpl.
    rewrite delete_matched by exact Hpk. apply filter_ext. intros r. now rewrite E.
  - intros Hin.
    assert (rules <> []) as Hne by (intros ->; contradiction).
    pose proof (shortest_with_empty rules Hin) as Hs.
    rewrite remove_policies_run by (assumption || lia). rewrite Hok.
    assert (forall r, relaxed_match p rules r = (ptype r =? p)) as E
      by (intros r; unfold relaxed_match; rewrite Hs; simpl; apply andb_true_r).
    rewrite (filter_ext _ _ E).
    eexists. split; [reflexivity|]. simpl. now apply delete_matched.
Qed.

Lemma empty_rule_removes_ptype_witness :
  (exists (self' : Adapter) (b : bool),
      remove_policy "p" "p" [] mixed = (self', Ok b)
      /\ table (_engine self')
         = List.filter (fun r => negb (ptype r =? "p")) (table (_engine mixed)))
  /\ (In [] [["zed"; "nothing"]; []] ->
      exists self' : Adapter,
        remove_policies "p" "p" [["zed"; "nothing"]; []] mixed = (self', Ok tt)
        /\ table (_engine self')
           = List.filter (fun r => negb (ptype r =? "p")) (table (_engine mixed))).
Proof.
  apply (empty_rule_removes_ptype mixed "p" "p" [["zed"; "nothing"]; []]).
  - unfold primary_key. simpl. repeat constructor; simpl; intuition discriminate.
  - reflexivity.
Defined.

End SharpEdges.

(** ** save_policy on a backend that may fail *)

Section SavePolicyOutcomes.

Lemma forM__app {St A} (f : A -> M St unit) (xs ys : list A) :
  forall s, forM_ (xs ++ ys) f s = (forM_ xs f ;; forM_ ys f) s.
Proof.
  induction xs as [|x xs IH]; intros s; simpl.
  - reflexivity.
  - unfold bind in *. destruct (f x s) as [s' [u|e]]; [apply IH | reflexivity].
Qed.

Lemma call_self_forM_ {A} (f : A -> M Adapter unit) (xs : list A) :
  forall sc : Scope,
    forM_ xs (fun x => call_self (f x)) sc = call_self (forM_ xs f) sc.
Proof.
  induction xs as [|x xs IH]; intros [session self]; simpl.
  - reflexivity.
  - unfold bind, call_self in *. simpl.
    destruct (f x self) as [self' [u|e]]; [|reflexivity].
    apply (IH (session, self')).
Qed.

Lemma call_self_pair {A} (c : M Adapter A) (session : Session) (self : Adapter) :
  call_self c (session, self) = (let (self', r) := c self in ((session, self'), r)).
Proof. reflexivity. Qed.

Lemma save_section_lines (asts : list (string * Assertion)) :
  forall sc : Scope,
    forM_ asts (fun item =>
      forM_ (policy (snd item)) (fun rule =>
        call_self (_save_policy_line (fst item) rule))) sc
    = call_self (save_lines (section_rules asts)) sc.
Proof.
  induction asts as [|item asts IH]; intros [session self].
  - reflexivity.
  - simpl forM_. unfold bind at 1. rewrite call_self_forM_.
    change (section_rules (item :: asts))
      with (map (pair (fst item)) (policy (snd item)) ++ section_rules asts).
    unfold call_self at 1 3. unfold save_lines. cbn [fst snd].
    rewrite forM__app. unfold bind at 1. rewrite forM__map. cbn [fst snd].
    destruct (forM_ (policy (snd item))
                (fun x => _save_policy_line (fst item) x) self) as [self' [u|e]];
      [|reflexivity].
    rewrite IH. reflexivity.
Qed.

Lemma save_lines_run (prs : list (string * list string)) :
  forall self : Adapter,
  exists k : nat,
    table (_engine (fst (save_lines prs self)))
      = table (_engine self) ++ records_of_pairs (next_id (_engine self)) (firstn k prs)
    /\ next_id (_engine (fst (save_lines prs self)))
       = (next_id (_engine self) + Z.of_nat k)%Z
    /\ _filtered (fst (save_lines prs self)) = _filtered self
    /\ match snd (save_lines prs self) with
       | Ok _ => k = List.length prs
       | Raise e => e = StorageError /\ (k < List.length prs)%nat
       end.
Proof.
  induction prs as [|pr prs IH]; intros self.
  - exists 0%nat. simpl. rewrite app_nil_r, Z.add_0_r. auto.
  - unfold save_lines. simpl forM_. unfold bind.
    rewrite _save_policy_line_run.
    destruct (next_fault (_engine self)).
    + exists 0%nat. simpl. rewrite app_nil_r, Z.add_0_r. repeat split; lia.
    + match goal with
      | |- context [forM_ prs ?f ?s] =>
          destruct (IH s) as (k & Ht & Hn & Hf & Hr); unfold save_lines in Ht, Hn, Hf, Hr;
          exists (S k)
      end.
      simpl in Ht, Hn, Hf, Hr |- *.
      rewrite Ht, Hn, Hf, <- app_assoc. simpl.
      repeat split; try lia.
      match goal with
      | |- match snd ?x with _ => _ end => destruct (snd x)
      end; [lia | destruct Hr; split; [assumption | lia]].
Qed.

(** [save_policy] as the delete of its own session around the loop of
    inserts. *)
Lemma save_policy_run (m : Model) (self : Adapter) :
  save_policy m self =
  match save_lines (model_rules m) self with
  | (self1, Ok _) =>
      if next_fault (_engine self1)
      then (set_engine self1 (consume_fault (_engine self1)), Raise StorageError)
      else (set_engine self1
              (execute (consume_fault (_engine self1))
                       (Delete (map id (table (_engine self))))),
            Ok true)
  | (self1, Raise e) => (self1, Raise e)
  end.
Proof.
  assert (forall sc : Scope,
            forM_ ["p"; "g"] (fun sec =>
              match dict_get sec (model m) with
              | None => ret tt
              | Some asts =>
                  forM_ asts (fun item =>
                    forM_ (policy (snd item)) (fun rule =>
                      call_self (_save_policy_line (fst item) rule)))
              end) sc
            = call_self (save_lines (model_rules m)) sc) as Hloops.
  { assert (forall sec (sc : Scope),
              match dict_get sec (model m) with
              | None => ret tt
              | Some asts =>
                  forM_ asts (fun item =>
                    forM_ (policy (snd item)) (fun rule =>
                      call_self (_save_policy_line (fst item) rule)))
              end sc
              = call_self (save_lines (match dict_get sec (model m) with
                                       | Some asts => section_rules asts
                                       | None => []
                                       end)) sc) as Hsec.
    { intros sec sc. destruct (dict_get sec (model m)).
      - apply save_section_lines.
      - destruct sc. reflexivity. }
    intros [session self0]. simpl forM_.
    unfold bind at 1. rewrite Hsec.
    unfold model_rules. simpl flat_map. rewrite app_nil_r.
    rewrite !call_self_pair. unfold save_lines. rewrite forM__app.
    unfold bind at 2.
    match goal with
    | |- context [forM_ ?l ?f self0] => destruct (forM_ l f self0) as [self1 [u|e]]
    end; [|reflexivity].
    unfold bind at 1. rewrite Hsec. rewrite call_self_pair. unfold save_lines, ret.
    match goal with
    | |- context [forM_ ?l ?f self1] => destruct (forM_ l f self1) as [self2 [[]|e2]]
    end; reflexivity. }
  unfold save_policy. unfold bind at 1. unfold _session_scope.
  unfold bind at 1. unfold delete at 1. cbn [fst snd].
  unfold view, session_local. simpl pending. simpl execute_all.
  unfold Query.select. simpl Query.ordered. cbv iota.
  unfold Query.satisfies. simpl Query.criteria. simpl forallb. rewrite filter_all.
  rewrite Hloops, call_self_pair.
  destruct (save_lines (model_rules m) self) as [self1 [u|e]]; [|reflexivity].
  unfold commit, send. simpl used. cbv iota.
  destruct (next_fault (_engine self1)); reflexivity.
Qed.

(** X18: [save_policy] on a backend that may fail any commit (keys below the
    sequence).  Either it returns True and the table holds exactly the
    records of the model's rules; or it raises the backend's error and the
    table holds every row from before the call, followed by the records of
    the first [k] rules of the model for some [k] up to their number: the
    delete is rolled back, the inserts that were committed stay. *)
Theorem save_policy_outcomes (m : Model) (self : Adapter) :
  keys_below_sequence self ->
  match snd (save_policy m self) with
  | Ok b =>
      b = true
      /\ table (_engine (fst (save_policy m self)))
         = records_of_pairs (next_id (_engine self)) (model_rules m)
  | Raise e =>
      e = StorageError
      /\ exists k : nat,
           (k <= List.length (model_rules m))%nat
           /\ table (_engine (fst (save_policy m self)))
              = table (_engine self)
                ++ records_of_pairs (next_id (_engine self)) (firstn k (model_rules m))
  end.
Proof.
  intros Hkeys. rewrite save_policy_run.
  destruct (save_lines_run (model_rules m) self) as (k & Ht & Hn & Hf & Hr).
  destruct (save_lines (model_rules m) self) as [self1 [u|e]]; simpl in Ht, Hn, Hf, Hr.
  - subst k. rewrite firstn_all in Ht.
    destruct (next_fault (_engine self1)); simpl.
    + split; [reflexivity|]. exists (List.length (model_rules m)).
      split; [lia|]. now rewrite firstn_all.
    + split; [reflexivity|]. rewrite Ht. apply delete_old_keep_new.
      intros r Hr' Hin. apply in_map_iff in Hin. destruct Hin as (r0 & E & Hr0).
      unfold keys_below_sequence in Hkeys. rewrite Forall_forall in Hkeys.
      specialize (Hkeys r0 Hr0).
      pose proof (records_of_pairs_keys (model_rules m) (next_id (_engine self))) as Hge.
      rewrite Forall_forall in Hge. specialize (Hge r Hr'). lia.
  - simpl. destruct Hr as [-> Hk]. split; [reflexivity|].
    exists k. split; [lia | exact Ht].
Qed.

Lemma save_policy_outcomes_witness :
  StorageError = StorageError
  /\ exists k : nat,
       (k <= List.length (model_rules policy_model))%nat
       /\ table (_engine (fst (save_policy policy_model flaky)))
          = table (_engine flaky)
            ++ records_of_pairs (next_id (_engine flaky))
                 (firstn k (model_rules policy_model)).
Proof.
  apply (save_policy_outcomes policy_model flaky).
  unfold keys_below_sequence. simpl. repeat constructor.
Defined.

End SavePolicyOutcomes.

(** ** Wildcards only; saving then loading *)

Section MoreRoundTrips.

Variable load_policy_line : string -> Model -> Model.

Lemma filtered_match_wildcards (p : string) (field_index : Z) (field_values : list string)
    (r : CasbinRule) :
  Forall (fun v => v = "") field_values ->
  filtered_match p field_index field_values r = (ptype r =? p).
Proof.
  intros Hall. unfold filtered_match, enumerate.
  assert (forall k,
            forallb (fun iv =>
                       if snd iv =? "" then true
                       else Query.eq_ (value_at (Z.to_nat (field_index + Z.of_nat (fst iv))))
                                      (snd iv) r)
                    (combine (seq k (List.length field_values)) field_values) = true) as H.
  { induction Hall as [|v vs Hv Hvs IH]; intros k; simpl; [reflexivity|].
    subst v. simpl. apply IH. }
  rewrite H. apply andb_true_r.
Qed.

(** X19: field values that are all the empty string constrain nothing:
    on valid bounds (unique primary key, the backend accepts the commit)
    [remove_filtered_policy] then deletes every row of the given ptype. *)
Theorem remove_filtered_policy_wildcards_only (self : Adapter) (sec p : string)
    (field_index : Z) (field_values : list string) :
  (0 <= field_index <= 5)%Z ->
  (1 <= field_index + Z.of_nat (List.length field_values) <= 6)%Z ->
  Forall (fun v => v = "") field_values ->
  primary_key self ->
  healthy 1 self ->
  exists (self' : Adapter) (b : bool),
    remove_filtered_policy sec p field_index field_values self = (self', Ok b)
    /\ table (_engine self')
       = List.filter (fun r => negb (ptype r =? p)) (table (_engine self)).
Proof.
  intros Hfi Hsum Hall Hpk Hok. apply healthy_next in Hok.
  rewrite remove_filtered_policy_run by assumption. rewrite Hok.
  eexists. eexists. split; [reflexivity|]. simpl.
  unfold primary_key in Hpk. rewrite delete_matched by exact Hpk.
  apply filter_ext. intros r. now rewrite filtered_match_wildcards.
Qed.

Lemma remove_filtered_policy_wildcards_only_witness :
  exists (self' : Adapter) (b : bool),
    remove_filtered_policy "p" "p" 1 [""; ""] mixed = (self', Ok b)
    /\ table (_engine self')
       = List.filter (fun r => negb (ptype r =? "p")) (table (_engine mixed)).
Proof.
  apply (remove_filtered_policy_wildcards_only mixed "p" "p" 1 [""; ""]).
  - lia.
  - simpl. lia.
  - repeat constructor.
  - unfold primary_key. simpl. repeat constructor; simpl; intuition discriminate.
  - reflexivity.
Defined.

Lemma save_lines_reliable (prs : list (string * list string)) :
  forall self : Adapter,
    faults (_engine self) = [] ->
    save_lines prs self = (stored self prs, Ok tt).
Proof.
  induction prs as [|pr prs IH]; intros self Hf.
  - unfold save_lines. simpl. unfold ret. now rewrite stored_nil.
  - unfold save_lines. simpl forM_. unfold bind.
    destruct pr as [p rule]. cbn [fst snd].
    rewrite _save_policy_line_reliable by exact Hf.
    fold (save_lines prs). rewrite IH by reflexivity. now rewrite stored_app.
Qed.

Lemma lines_of_records (prs : list (string * list string)) :
  Forall (fun pr => (List.length (snd pr) <= 6)%nat) prs ->
  forall i : Z,
    map __str__ (records_of_pairs i prs)
    = map (fun pr => String.concat ", " (fst pr :: snd pr)) prs.
Proof.
  induction 1 as [|pr prs Hpr Hprs IH]; intros i; simpl; [reflexivity|].
  rewrite str_of_record by exact Hpr. now rewrite IH.
Qed.

Lemma feed_lines (rows : list CasbinRule) (m : Model) :
  feed load_policy_line rows m
  = fold_left (fun m line => load_policy_line line m) (map __str__ rows) m.
Proof.
  unfold feed. revert m. induction rows as [|r rows IH]; intros m; simpl; [reflexivity|].
  apply IH.
Qed.

(** X20: saving a model and loading again, on a backend that never fails
    (keys below the sequence, every rule of at most six elements): whatever
    the table held before, [load_policy] feeds the loader exactly one line
    per rule of the model's sections "p" and "g", in the order [save_policy]
    visits them, each line being the ptype followed by the rule's elements. *)
Theorem save_policy_load_policy_round_trip (m m0 : Model) (self : Adapter) :
  faults (_engine self) = [] ->
  keys_below_sequence self ->
  Forall (fun pr => (List.length (snd pr) <= 6)%nat) (model_rules m) ->
  exists self1 self2 : Adapter,
    save_policy m self = (self1, Ok true)
    /\ load_policy load_policy_line m0 self1
       = (self2,
          Ok (fold_left (fun acc line => load_policy_line line acc)
                (map (fun pr => String.concat ", " (fst pr :: snd pr)) (model_rules m))
                m0)).
Proof.
  intros Hf Hkeys Hlen.
  rewrite save_policy_run, save_lines_reliable by exact Hf.
  unfold next_fault. simpl.
  eexists. eexists. split; [reflexivity|].
  rewrite load_policy_run by reflexivity.
  rewrite feed_lines. simpl.
  rewrite delete_old_keep_new.
  - rewrite lines_of_records by exact Hlen. reflexivity.
  - intros r Hr Hin. apply in_map_iff in Hin. destruct Hin as (r0 & E & Hr0).
    unfold keys_below_sequence in Hkeys. rewrite Forall_forall in Hkeys.
    specialize (Hkeys r0 Hr0).
    pose proof (records_of_pairs_keys (model_rules m) (next_id (_engine self))) as Hge.
    rewrite Forall_forall in Hge. specialize (Hge r Hr). lia.
Qed.

End MoreRoundTrips.

Lemma save_policy_load_policy_round_trip_witness :
  exists self1 self2 : Adapter,
    save_policy policy_model reliable = (self1, Ok true)
    /\ load_policy trace_line (mkModel []) self1
       = (self2,
          Ok (fold_left (fun acc line => trace_line line acc)
                (map (fun pr => String.concat ", " (fst pr :: snd pr))
                     (model_rules policy_model))
                (mkModel []))).
Proof.
  apply (save_policy_load_policy_round_trip trace_line policy_model (mkModel []) reliable).
  - reflexivity.
  - unfold keys_below_sequence. simpl. repeat constructor.
  - simpl. repeat constructor; simpl; lia.
Defined.

Example save_then_load_lines :
  snd (load_policy trace_line (mkModel []) (fst (save_policy policy_model reliable)))
  = Ok (mkModel [("g, alice, admin", []);
                 ("p, carol, data3, read", []);
                 ("p, bob, data2, write", [])]).
Proof. reflexivity. Qed.
